(** * The annotation page of audino: segment lifecycle and synchronisation

    Shallow embedding of [frontend/src/pages/annotate.js] (the React
    component [Annotate]) together with the part of the interface of
    wavesurfer.js and its regions plug-in that the component drives.

    Conventions of the embedding.
    - A JavaScript value that the code only tests, copies or prints is a
      [Js.value]; a reference to a region object is its address in the
      heap of region objects, so that the aliasing between
      [this.state.selectedSegment] and [wavesurfer.regions.list] is kept.
    - A method body is a computation in the monad [M]: it threads the
      world and may stop with a [TypeError]; what it wrote before the
      exception stays written, as in JavaScript.
    - [axios(...)] records the request and parks the [.then/.catch] pair
      as a [Pending] continuation; the event [Settle] runs it later.
    - [setState] is applied at once (React 16 outside batched handlers;
      each handler below reads [this.state] only at its first line).
    - Times are seconds; the code never computes with them, they are
      carried as rationals. *)

From Stdlib Require Import ZArith QArith Ascii String List.
From stdpp Require Import base option list strings gmap pretty.

Local Open Scope string_scope.
Local Open Scope Z_scope.
Local Open Scope list_scope.

(** ** JavaScript values *)

Module Js.

Inductive value : Type :=
| Undefined
| Null
| Bool (b : bool)
| Num (n : Z)
| Str (s : string).

Inductive error : Type :=
| TypeError.

#[global] Instance value_eq_dec : EqDecision value.
Proof. solve_decision. Defined.

(** [if (v)], [v || w], [v ? a : b] *)
Definition truthy (v : value) : bool :=
  match v with
  | Undefined | Null => false
  | Bool b => b
  | Num n => negb (n =? 0)
  | Str s => negb (String.eqb s "")
  end.

(** [const { x = d } = obj]: the default replaces [undefined] only *)
Definition with_default (d v : value) : value :=
  match v with
  | Undefined => d
  | _ => v
  end.

(** [v === null] *)
Definition is_null (v : value) : bool :=
  match v with
  | Null => true
  | _ => false
  end.

(** *** The text of a number

    [Num n] stands for the number that the numeral [n] denotes, an
    integer-valued double. Up to [2^53] every integer is a double of its
    own and is printed with all its digits; from there on the number is
    the nearest double, printed with the fewest digits that denote it,
    padded with zeros below [1e21] and in exponent form from [1e21]. *)

Definition two53 : Z := 9007199254740992.

(** The double nearest to the integer [m >= 0]: 53 significant bits,
    a tie goes to the even significand. *)
Definition round53 (m : Z) : Z :=
  let shift := Z.log2 m - 52 in
  if shift <=? 0 then m
  else
    let q := Z.shiftr m shift in
    let r := m - Z.shiftl q shift in
    let half := Z.shiftl 1 (shift - 1) in
    let q' := if (half <? r) || ((r =? half) && Z.odd q) then q + 1 else q in
    Z.shiftl q' shift.

(** The number of decimal digits of [v >= 0] *)
Definition ndigits (v : Z) : Z := Z.of_nat (String.length (pretty v)).

(** Among the numerals with [k] significant digits that denote the
    double [x] (of [n] digits), the one closest to [x]; a tie goes to
    the even one. The two multiples of [10^(n-k)] around [x] are the
    only ones that can be closest. *)
Definition candidate (x n k : Z) : option Z :=
  if n <? k then None
  else
    let p := 10 ^ (n - k) in
    let lo := (x / p) * p in
    let hi := lo + p in
    let ok_lo := round53 lo =? x in
    let ok_hi := round53 hi =? x in
    if ok_lo && ok_hi then
      if x - lo <? hi - x then Some lo
      else if hi - x <? x - lo then Some hi
      else if Z.even (lo / p) then Some lo else Some hi
    else if ok_lo then Some lo
    else if ok_hi then Some hi
    else None.

Fixpoint first_candidate (x n : Z) (ks : list Z) : option Z :=
  match ks with
  | [] => None
  | k :: ks' =>
      match candidate x n k with
      | Some v => Some v
      | None => first_candidate x n ks'
      end
  end.

(** The numeral with the fewest significant digits that denotes the
    double [x]; seventeen digits always do. *)
Definition shortest (x : Z) : Z :=
  default x (first_candidate x (ndigits x) (map Z.of_nat (seq 1 17))).

Fixpoint strip_zeros (fuel : nat) (v : Z) : Z :=
  match fuel with
  | O => v
  | S fuel' =>
      if (v mod 10 =? 0) && (0 <? v) then strip_zeros fuel' (v / 10) else v
  end.

(** The text of the double nearest to [m >= 2^53] *)
Definition big_to_string (m : Z) : string :=
  let x := round53 m in
  if 2 ^ 1024 <=? x then "Infinity"
  else
    let v := shortest x in
    let n := ndigits v in
    if n <=? 21 then pretty v
    else
      match pretty (strip_zeros (Z.to_nat n) v) with
      | String c EmptyString => String c "e+" +:+ pretty (n - 1)
      | String c rest => String c ("." +:+ rest) +:+ "e+" +:+ pretty (n - 1)
      | EmptyString => EmptyString
      end.

Definition nonneg_to_string (m : Z) : string :=
  if m <? two53 then pretty m else big_to_string m.

(** [String(n)] for an integer-valued number *)
Definition number_to_string (n : Z) : string :=
  if n <? 0 then "-" +:+ nonneg_to_string (- n) else nonneg_to_string n.

(** [`${v}`] *)
Definition to_string (v : value) : string :=
  match v with
  | Undefined => "undefined"
  | Null => "null"
  | Bool true => "true"
  | Bool false => "false"
  | Num n => number_to_string n
  | Str s => s
  end.

(** [a || b] *)
Definition or (a b : value) : value :=
  if truthy a then a else b.

End Js.

(** ** Data carried by a segment *)

(** [values] of an annotation: the string of a single-choice control or
    the array of strings of a multi-choice control. *)
Inductive AnnValues : Type :=
| Single (v : string)
| Multi (vs : list string).

Record Annotation : Type := mkAnnotation {
  label_id : Js.value;
  values : AnnValues
}.

#[global] Instance AnnValues_eq_dec : EqDecision AnnValues.
Proof. solve_decision. Defined.

#[global] Instance Annotation_eq_dec : EqDecision Annotation.
Proof. solve_decision. Defined.

(** [region.data]: [annotations] is [None] for a falsy value
    ([undefined], [null]) and [Some m] for an object. *)
Record SegData : Type := mkSegData {
  segmentation_id : Js.value;
  transcription : Js.value;
  annotations : option (gmap string Annotation)
}.

(** [{}] *)
Definition empty_data : SegData :=
  {| segmentation_id := Js.Undefined;
     transcription := Js.Undefined;
     annotations := None |}.

Definition set_segmentation_id (v : Js.value) (d : SegData) : SegData :=
  {| segmentation_id := v;
     transcription := transcription d;
     annotations := annotations d |}.

Definition set_transcription (v : Js.value) (d : SegData) : SegData :=
  {| segmentation_id := segmentation_id d;
     transcription := v;
     annotations := annotations d |}.

Definition set_annotations (m : option (gmap string Annotation)) (d : SegData) : SegData :=
  {| segmentation_id := segmentation_id d;
     transcription := transcription d;
     annotations := m |}.

(** One entry of [segmentations] in the answer of [GET dataUrl]. *)
Record Segmentation : Type := mkSegmentation {
  s_segmentation_id : Js.value;
  s_start_time : Q;
  s_end_time : Q;
  s_transcription : Js.value;
  s_annotations : option (gmap string Annotation)
}.

(** One entry of the label catalogue, the answer of [GET labelsUrl]. *)
Record LabelDef : Type := mkLabelDef {
  l_label_id : Js.value;
  l_type : string;
  l_values : list (Js.value * string)
}.

(** ** wavesurfer.js with the regions plug-in

    Only the interface the component uses: [addRegion], [region.remove],
    [regions.list] and the identifier generator of the library. A region
    object lives in [heap] for ever; [rlist] is [wavesurfer.regions.list],
    an object keyed by region id whose keys are kept in insertion order. *)

Module WaveSurfer.

Record Region : Type := mkRegion {
  id : string;
  start : Q;
  end_ : Q;
  data : SegData
}.

Definition set_data (d : SegData) (r : Region) : Region :=
  {| id := id r; start := start r; end_ := end_ r; data := d |}.

Definition set_range (s e : Q) (r : Region) : Region :=
  {| id := id r; start := s; end_ := e; data := data r |}.

(** The argument of [addRegion]; [p_data = None] when [data] is not given. *)
Record Params : Type := mkParams {
  p_start : Q;
  p_end : Q;
  p_data : option SegData
}.

Record t : Type := mkWs {
  heap : list Region;
  rlist : list (string * nat);
  draws : nat
}.

Definition empty : t := {| heap := []; rlist := []; draws := 0%nat |}.

(** [list[k]] *)
Fixpoint get (k : string) (l : list (string * nat)) : option nat :=
  match l with
  | [] => None
  | (k', a) :: l' => if decide (k = k') then Some a else get k l'
  end.

(** [list[k] = a]: an existing key keeps its place, a new one goes last *)
Fixpoint put (k : string) (a : nat) (l : list (string * nat)) : list (string * nat) :=
  match l with
  | [] => [(k, a)]
  | (k', a') :: l' =>
      if decide (k = k') then (k, a) :: l' else (k', a') :: put k a l'
  end.

(** [delete list[k]] *)
Fixpoint del (k : string) (l : list (string * nat)) : list (string * nat) :=
  match l with
  | [] => []
  | (k', a') :: l' =>
      if decide (k = k') then del k l' else (k', a') :: del k l'
  end.

(** [Object.keys(list)] *)
Definition keys (l : list (string * nat)) : list string := map fst l.

Section Generator.

(** [util.getId()]: the [n]-th identifier the library draws. *)
Variable getId : nat -> string.

(** [regions.add(params)]: [new Region(params)] gets a generated id
    and [data = params.data || {}], then [list[region.id] = region]. *)
Definition add (p : Params) (w : t) : nat * t :=
  let a := length (heap w) in
  let r := {| id := getId (draws w);
              start := p_start p;
              end_ := p_end p;
              data := default empty_data (p_data p) |} in
  (a, {| heap := heap w ++ [r];
         rlist := put (id r) a (rlist w);
         draws := S (draws w) |}).

End Generator.

(** [region.remove()]: the plug-in's handler runs [delete list[region.id]]. *)
Definition remove (a : nat) (w : t) : t :=
  match heap w !! a with
  | Some r => {| heap := heap w; rlist := del (id r) (rlist w); draws := draws w |}
  | None => w
  end.

Definition update (a : nat) (f : Region -> Region) (w : t) : t :=
  match heap w !! a with
  | Some r => {| heap := <[a := f r]> (heap w); rlist := rlist w; draws := draws w |}
  | None => w
  end.

End WaveSurfer.


(** ** The component: [this.state], the network and the monad of method bodies *)

Inductive Method : Type := GET | POST | PUT | PATCH | DELETE.

(** [{ start, end, transcription, annotations }] *)
Record Payload : Type := mkPayload {
  b_start : Q;
  b_end : Q;
  b_transcription : Js.value;
  b_annotations : option (gmap string Annotation)
}.

Inductive Body : Type :=
| NoBody
| SegmentBody (p : Payload)
| ReviewBody (is_marked_for_review : bool).

Record Request : Type := mkRequest {
  method : Method;
  url : string;
  body : Body
}.

(** [response.data] as far as the continuations read it. *)
Record ResponseData : Type := mkResponseData {
  r_segmentation_id : Js.value;
  r_is_marked_for_review : bool
}.

(** How a request ends: fulfilled with [response.data] ([None] when the
    body is [null]), or rejected. *)
Inductive Response : Type :=
| Fulfilled (d : option ResponseData)
| Rejected.

(** The [.then/.catch] pair parked by a handler, with the variables its
    closures captured. *)
Inductive Pending : Type :=
| PDelete (wavesurfer_ : bool) (selectedSegment_ : nat)
| PCreate (selectedSegment_ : nat)
| PUpdate
| PReview.

#[global] Instance Pending_eq_dec : EqDecision Pending.
Proof. solve_decision. Defined.

(** The fields of [this.state] that the segment handlers and the review
    flag read or write. [wavesurfer] tells whether [state.wavesurfer]
    holds the instance ([null] before the data arrived); [selectedSegment]
    is a reference to a region object or [null]. *)
Record State : Type := mkState {
  isPlaying : bool;
  labels : gmap string LabelDef;
  labelsUrl : string;
  dataUrl : string;
  segmentationUrl : string;
  isDataLoading : bool;
  wavesurfer : bool;
  referenceTranscription : Js.value;
  isMarkedForReview : bool;
  selectedSegment : option nat;
  isSegmentDeleting : bool;
  isSegmentSaving : bool;
  errorMessage : Js.value;
  successMessage : Js.value;
  filename : Js.value
}.

(** The part of [setState]'s argument a call site may give. *)
Record Patch : Type := mkPatch {
  u_isPlaying : option bool;
  u_labels : option (gmap string LabelDef);
  u_isDataLoading : option bool;
  u_wavesurfer : option bool;
  u_referenceTranscription : option Js.value;
  u_isMarkedForReview : option bool;
  u_selectedSegment : option (option nat);
  u_isSegmentDeleting : option bool;
  u_isSegmentSaving : option bool;
  u_errorMessage : option Js.value;
  u_successMessage : option Js.value;
  u_filename : option Js.value
}.

(** [{}] *)
Definition no_patch : Patch :=
  {| u_isPlaying := None; u_labels := None; u_isDataLoading := None;
     u_wavesurfer := None; u_referenceTranscription := None;
     u_isMarkedForReview := None; u_selectedSegment := None;
     u_isSegmentDeleting := None; u_isSegmentSaving := None;
     u_errorMessage := None; u_successMessage := None; u_filename := None |}.

(** [Object.assign({}, state, patch)] *)
Definition merge (p : Patch) (s : State) : State :=
  {| isPlaying := default (isPlaying s) (u_isPlaying p);
     labels := default (labels s) (u_labels p);
     labelsUrl := labelsUrl s;
     dataUrl := dataUrl s;
     segmentationUrl := segmentationUrl s;
     isDataLoading := default (isDataLoading s) (u_isDataLoading p);
     wavesurfer := default (wavesurfer s) (u_wavesurfer p);
     referenceTranscription := default (referenceTranscription s) (u_referenceTranscription p);
     isMarkedForReview := default (isMarkedForReview s) (u_isMarkedForReview p);
     selectedSegment := default (selectedSegment s) (u_selectedSegment p);
     isSegmentDeleting := default (isSegmentDeleting s) (u_isSegmentDeleting p);
     isSegmentSaving := default (isSegmentSaving s) (u_isSegmentSaving p);
     errorMessage := default (errorMessage s) (u_errorMessage p);
     successMessage := default (successMessage s) (u_successMessage p);
     filename := default (filename s) (u_filename p) |}.

(** Everything a handler can touch: the component state, the wavesurfer
    instance, the text of the [segmentTranscription] element, the
    requests sent so far (oldest first) and the promises not yet settled. *)
Record World : Type := mkWorld {
  st : State;
  ws : WaveSurfer.t;
  segmentTranscription : Js.value;
  net : list Request;
  inflight : list Pending
}.

Definition with_st (s : State) (w : World) : World :=
  {| st := s; ws := ws w; segmentTranscription := segmentTranscription w;
     net := net w; inflight := inflight w |}.

Definition with_ws (v : WaveSurfer.t) (w : World) : World :=
  {| st := st w; ws := v; segmentTranscription := segmentTranscription w;
     net := net w; inflight := inflight w |}.

Definition with_text (v : Js.value) (w : World) : World :=
  {| st := st w; ws := ws w; segmentTranscription := v;
     net := net w; inflight := inflight w |}.

Definition with_net (n : list Request) (p : list Pending) (w : World) : World :=
  {| st := st w; ws := ws w; segmentTranscription := segmentTranscription w;
     net := n; inflight := p |}.

Inductive outcome (A : Type) : Type :=
| Ret (a : A)
| Throw (e : Js.error).

Arguments Ret {A} a.
Arguments Throw {A} e.

Definition M (A : Type) : Type := World -> World * outcome A.

#[global] Instance M_ret : MRet M :=
  fun A a w => (w, Ret a).

#[global] Instance M_bind : MBind M :=
  fun A B k c w =>
    match c w with
    | (w', Ret a) => k a w'
    | (w', Throw e) => (w', Throw e)
    end.

Definition throw {A : Type} (e : Js.error) : M A :=
  fun w => (w, Throw e).

(** [c] with [h] as its [catch] clause *)
Definition try_catch (c : M unit) (h : M unit) : M unit :=
  fun w =>
    match c w with
    | (w', Ret a) => (w', Ret a)
    | (w', Throw _) => h w'
    end.

(** [this.state] *)
Definition getState : M State :=
  fun w => (w, Ret (st w)).

(** [this.setState(p)] *)
Definition setState (p : Patch) : M unit :=
  fun w => (with_st (merge p (st w)) w, Ret tt).

(** Reading a property of [o]: a [TypeError] when [o] is [null] or [undefined]. *)
Definition notNull {A : Type} (o : option A) : M A :=
  match o with
  | Some a => mret a
  | None => throw Js.TypeError
  end.

(** The region object behind a reference. *)
Definition region (a : nat) : M WaveSurfer.Region :=
  fun w => notNull (WaveSurfer.heap (ws w) !! a) w.

(** [r.data = f(r.data)] on the object at [a]. *)
Definition writeData (a : nat) (f : SegData -> SegData) : M unit :=
  fun w =>
    (with_ws (WaveSurfer.update a (fun r => WaveSurfer.set_data (f (WaveSurfer.data r)) r) (ws w)) w,
     Ret tt).

(** [axios(req).then(..).catch(..)]: the request leaves, the continuation waits. *)
Definition axios (req : Request) (k : Pending) : M unit :=
  fun w => (with_net (net w ++ [req]) (inflight w ++ [k]) w, Ret tt).

(** [wavesurfer.regions.list[k]], about to be used as an object *)
Definition listed (k : string) : M nat :=
  fun w => notNull (WaveSurfer.get k (WaveSurfer.rlist (ws w))) w.

(** [region.remove()] *)
Definition regionRemove (a : nat) : M unit :=
  fun w => (with_ws (WaveSurfer.remove a (ws w)) w, Ret tt).

(** [axios.all([..]).then(..).catch(..)]: the continuation of the two
    loading requests is run by the event [SettleLoad]. *)
Definition axiosAll (reqs : list Request) : M unit :=
  fun w => (with_net (net w ++ reqs) (inflight w) w, Ret tt).

(** [Object.keys(wavesurfer.regions.list)] *)
Definition regionKeys : M (list string) :=
  fun w => (w, Ret (WaveSurfer.keys (WaveSurfer.rlist (ws w)))).

(** [wavesurfer.regions.list[k]], used as a value *)
Definition listGet (k : string) : M (option nat) :=
  fun w => (w, Ret (WaveSurfer.get k (WaveSurfer.rlist (ws w)))).

(** [wavesurfer.load(url)]: the library fetches the audio; its end is
    the event ["ready"]. *)
Definition wavesurferLoad (url : string) : M unit :=
  fun w => (with_net (net w ++ [ {| method := GET; url := url; body := NoBody |} ])
                     (inflight w) w, Ret tt).

Definition setText (v : Js.value) : M unit :=
  fun w => (with_text v w, Ret tt).

(** [{ ...: value }] patches used by the handlers *)
Definition patch_saving (b : bool) (err succ : Js.value) : Patch :=
  {| u_isPlaying := None; u_labels := None; u_isDataLoading := None;
     u_wavesurfer := None; u_referenceTranscription := None;
     u_isMarkedForReview := None; u_selectedSegment := None;
     u_isSegmentDeleting := None; u_isSegmentSaving := Some b;
     u_errorMessage := Some err; u_successMessage := Some succ; u_filename := None |}.

Definition patch_isSaving (b : bool) : Patch :=
  {| u_isPlaying := None; u_labels := None; u_isDataLoading := None;
     u_wavesurfer := None; u_referenceTranscription := None;
     u_isMarkedForReview := None; u_selectedSegment := None;
     u_isSegmentDeleting := None; u_isSegmentSaving := Some b;
     u_errorMessage := None; u_successMessage := None; u_filename := None |}.

Definition patch_selected (sel : option nat) : Patch :=
  {| u_isPlaying := None; u_labels := None; u_isDataLoading := None;
     u_wavesurfer := None; u_referenceTranscription := None;
     u_isMarkedForReview := None; u_selectedSegment := Some sel;
     u_isSegmentDeleting := None; u_isSegmentSaving := None;
     u_errorMessage := None; u_successMessage := None; u_filename := None |}.

Definition patch_deleting (b : bool) : Patch :=
  {| u_isPlaying := None; u_labels := None; u_isDataLoading := None;
     u_wavesurfer := None; u_referenceTranscription := None;
     u_isMarkedForReview := None; u_selectedSegment := None;
     u_isSegmentDeleting := Some b; u_isSegmentSaving := None;
     u_errorMessage := None; u_successMessage := None; u_filename := None |}.

Definition patch_deleted : Patch :=
  {| u_isPlaying := None; u_labels := None; u_isDataLoading := None;
     u_wavesurfer := None; u_referenceTranscription := None;
     u_isMarkedForReview := None; u_selectedSegment := Some None;
     u_isSegmentDeleting := Some false; u_isSegmentSaving := None;
     u_errorMessage := None; u_successMessage := None; u_filename := None |}.

Definition patch_loading (b : bool) : Patch :=
  {| u_isPlaying := None; u_labels := None; u_isDataLoading := Some b;
     u_wavesurfer := None; u_referenceTranscription := None;
     u_isMarkedForReview := None; u_selectedSegment := None;
     u_isSegmentDeleting := None; u_isSegmentSaving := None;
     u_errorMessage := None; u_successMessage := None; u_filename := None |}.

Definition patch_playing (b : bool) : Patch :=
  {| u_isPlaying := Some b; u_labels := None; u_isDataLoading := None;
     u_wavesurfer := None; u_referenceTranscription := None;
     u_isMarkedForReview := None; u_selectedSegment := None;
     u_isSegmentDeleting := None; u_isSegmentSaving := None;
     u_errorMessage := None; u_successMessage := None; u_filename := None |}.

(** ** Methods of [Annotate] *)

(** [showSegmentTranscription(region)] *)
Definition showSegmentTranscription (reg : option nat) : M unit :=
  match reg with
  | None => setText (Js.Str "–")
  | Some a =>
      r ← region a;
      setText (Js.or (transcription (WaveSurfer.data r)) (Js.Str "–"))
  end.

(** [handlePlay()] and [handlePause()]; the call on [wavesurfer] comes last. *)
Definition handlePlay : M unit :=
  s ← getState;
  setState (patch_playing true);;
  if wavesurfer s then mret tt else throw Js.TypeError.

Definition handlePause : M unit :=
  s ← getState;
  setState (patch_playing false);;
  if wavesurfer s then mret tt else throw Js.TypeError.

(** [handleIsMarkedForReview(e)], with [checked = e.target.checked] *)
Definition handleIsMarkedForReview (checked : bool) : M unit :=
  s ← getState;
  setState (patch_loading true);;
  axios {| method := PATCH; url := dataUrl s; body := ReviewBody checked |} PReview.

Definition review_then (d : option ResponseData) : M unit :=
  r ← notNull d;
  setState
    {| u_isPlaying := None; u_labels := None; u_isDataLoading := Some false;
       u_wavesurfer := None; u_referenceTranscription := None;
       u_isMarkedForReview := Some (r_is_marked_for_review r);
       u_selectedSegment := None;
       u_isSegmentDeleting := None; u_isSegmentSaving := None;
       u_errorMessage := Some Js.Null;
       u_successMessage := Some (Js.Str "Marked for review status changed");
       u_filename := None |}.

Definition review_catch : M unit :=
  setState
    {| u_isPlaying := None; u_labels := None; u_isDataLoading := Some false;
       u_wavesurfer := None; u_referenceTranscription := None;
       u_isMarkedForReview := None; u_selectedSegment := None;
       u_isSegmentDeleting := None; u_isSegmentSaving := None;
       u_errorMessage := Some (Js.Str "Error changing review status");
       u_successMessage := Some Js.Null;
       u_filename := None |}.

(** [wavesurfer.regions.list[selectedSegment.id].remove()], where
    [wavesurfer] and [selectedSegment] are the handler's local constants *)
Definition removeSelected (wavesurfer_ : bool) (a : nat) : M unit :=
  (if wavesurfer_ then mret tt else throw Js.TypeError);;
  r ← region a;
  a' ← listed (WaveSurfer.id r);
  regionRemove a'.

(** [handleSegmentDelete()] *)
Definition handleSegmentDelete : M unit :=
  s ← getState;
  setState (patch_deleting true);;
  a ← notNull (selectedSegment s);
  r ← region a;
  if Js.truthy (segmentation_id (WaveSurfer.data r)) then
    axios {| method := DELETE;
             url := segmentationUrl s +:+ "/"
                    +:+ Js.to_string (segmentation_id (WaveSurfer.data r));
             body := NoBody |}
          (PDelete (wavesurfer s) a)
  else
    removeSelected (wavesurfer s) a;;
    setState patch_deleted.

Definition delete_then (wavesurfer_ : bool) (a : nat) : M unit :=
  removeSelected wavesurfer_ a;;
  setState patch_deleted.

Definition delete_catch : M unit :=
  setState (patch_deleting false).

(** [handleSegmentSave(e)] *)
Definition handleSegmentSave : M unit :=
  s ← getState;
  a ← notNull (selectedSegment s);
  r ← region a;
  let d := WaveSurfer.data r in
  let segmentation_id_ := Js.with_default Js.Null (segmentation_id d) in
  let payload :=
    SegmentBody {| b_start := WaveSurfer.start r;
                   b_end := WaveSurfer.end_ r;
                   b_transcription := transcription d;
                   b_annotations := annotations d |} in
  setState (patch_isSaving true);;
  if Js.is_null segmentation_id_ then
    axios {| method := POST; url := segmentationUrl s; body := payload |}
          (PCreate a)
  else
    axios {| method := PUT;
             url := segmentationUrl s +:+ "/" +:+ Js.to_string segmentation_id_;
             body := payload |}
          PUpdate.

Definition create_then (a : nat) (d : option ResponseData) : M unit :=
  r ← notNull d;
  writeData a (set_segmentation_id (r_segmentation_id r));;
  setState
    {| u_isPlaying := None; u_labels := None; u_isDataLoading := None;
       u_wavesurfer := None; u_referenceTranscription := None;
       u_isMarkedForReview := None; u_selectedSegment := Some (Some a);
       u_isSegmentDeleting := None; u_isSegmentSaving := Some false;
       u_errorMessage := Some Js.Null;
       u_successMessage := Some (Js.Str "Segment saved");
       u_filename := None |}.

Definition update_then : M unit :=
  setState (patch_saving false Js.Null (Js.Str "Segment saved")).

Definition save_catch : M unit :=
  setState (patch_saving false (Js.Str "Error saving segment") Js.Null).

(** [handleTranscriptionChange(e)], with [value = e.target.value] *)
Definition handleTranscriptionChange (value : string) : M unit :=
  s ← getState;
  a ← notNull (selectedSegment s);
  writeData a (set_transcription (Js.Str value));;
  setState (patch_selected (Some a)).

(** What [handleLabelChange] reads of the [select] element. *)
Record SelectEvent : Type := mkSelectEvent {
  e_value : string;
  e_selectedOptions : list string
}.

(** The names that a plain object, such as [labels], finds on
    [Object.prototype] when it has no property of that name itself. *)
Definition object_prototype_keys : list string :=
  ["constructor"; "__defineGetter__"; "__defineSetter__"; "hasOwnProperty";
   "__lookupGetter__"; "__lookupSetter__"; "isPrototypeOf";
   "propertyIsEnumerable"; "toString"; "valueOf"; "__proto__";
   "toLocaleString"].

(** What [labels[key]] evaluates to when it is not [undefined]: a label
    of the catalogue, or the member of [Object.prototype] of that name. *)
Inductive LabelsMember : Type :=
| OwnLabel (l : LabelDef)
| Inherited.

(** [labels[key]], [None] for [undefined] *)
Definition labels_get (labels : gmap string LabelDef) (key : string) :
    option LabelsMember :=
  match labels !! key with
  | Some l => Some (OwnLabel l)
  | None =>
      if bool_decide (key ∈ object_prototype_keys) then Some Inherited else None
  end.

(** [m["type"]] and [m["label_id"]]: the members of [Object.prototype]
    have neither property. *)
Definition member_type (m : LabelsMember) : Js.value :=
  match m with
  | OwnLabel l => Js.Str (l_type l)
  | Inherited => Js.Undefined
  end.

Definition member_label_id (m : LabelsMember) : Js.value :=
  match m with
  | OwnLabel l => l_label_id l
  | Inherited => Js.Undefined
  end.

(** [handleLabelChange(key, e)]. The annotations are kept as what
    [annotations[k]] reads; for [k = "__proto__"] the assignment makes
    the entry the prototype of the object, where that read finds it. *)
Definition handleLabelChange (key : string) (e : SelectEvent) : M unit :=
  s ← getState;
  a ← notNull (selectedSegment s);
  writeData a (fun d => set_annotations (Some (default ∅ (annotations d))) d);;
  m ← notNull (labels_get (labels s) key);
  let entry :=
    if bool_decide (member_type m = Js.Str "multiselect") then
      {| label_id := member_label_id m; values := Multi (e_selectedOptions e) |}
    else
      {| label_id := member_label_id m; values := Single (e_value e) |} in
  writeData a (fun d => set_annotations (insert key entry <$> annotations d) d);;
  setState (patch_selected (Some a)).

(** [handleAlertDismiss(e)] *)
Definition handleAlertDismiss : M unit :=
  setState
    {| u_isPlaying := None; u_labels := None; u_isDataLoading := None;
       u_wavesurfer := None; u_referenceTranscription := None;
       u_isMarkedForReview := None; u_selectedSegment := None;
       u_isSegmentDeleting := None; u_isSegmentSaving := None;
       u_errorMessage := Some (Js.Str ""); u_successMessage := Some (Js.Str "");
       u_filename := None |}.

(** ** Rendering

    The parts of [render()] that decide what the user sees of the
    selection, the messages and the review flag. *)

(** The outer [{!isDataLoading ? ... : null}] *)
Definition render_panel (s : State) : bool :=
  negb (isDataLoading s).

(** [{selectedSegment ? <div> transcription, labels, Delete, Save </div> : null}] *)
Definition render_editControls (s : State) : bool :=
  render_panel s && bool_decide (is_Some (selectedSegment s)).


(** [{errorMessage ? <Alert type="danger" message={errorMessage} /> : null}] *)
Definition render_errorAlert (s : State) : option Js.value :=
  if Js.truthy (errorMessage s) then Some (errorMessage s) else None.

(** The [value] attributes of the [option] elements of the control of a
    label; [None] when [value["values"]] is empty, for which the callback
    returns [null] and no control is drawn. *)
Definition render_options (l : LabelDef) : option (list string) :=
  if bool_decide (length (l_values l) = 0%nat) then None
  else
    Some ((if decide (l_type l = "multiselect") then [] else ["-1"])
          ++ map (fun val => Js.to_string (fst val)) (l_values l)).

(** ** Loading, wavesurfer events and the event loop *)

(** The answer of [GET dataUrl], and with [a_labels] that of [GET labelsUrl]. *)
Record LoadData : Type := mkLoadData {
  a_labels : gmap string LabelDef;
  a_reference_transcription : Js.value;
  a_is_marked_for_review : bool;
  a_segmentations : list Segmentation;
  a_filename : Js.value
}.

(** The callback of [segmentations.map] *)
Definition to_region (s : Segmentation) : WaveSurfer.Params :=
  {| WaveSurfer.p_start := s_start_time s;
     WaveSurfer.p_end := s_end_time s;
     WaveSurfer.p_data :=
       Some {| segmentation_id := s_segmentation_id s;
               transcription := s_transcription s;
               annotations := s_annotations s |} |}.

(** [xs.forEach(f)] *)
Fixpoint forEach {A : Type} (f : A -> M unit) (xs : list A) : M unit :=
  match xs with
  | [] => mret tt
  | x :: xs' => f x;; forEach f xs'
  end.

Inductive Event : Type :=
| Ready (duration : Q)
| RegionIn (r : nat)
| RegionOut
| RegionClick (r : nat)
| RegionDrawn (start_ end__ : Q)
| RegionResized (r : nat) (start_ end__ : Q)
| Paused
| ClickPlay
| ClickPause
| ToggleReview (checked : bool)
| ClickDelete
| ClickSave
| TypeTranscription (value : string)
| ChangeLabel (key : string) (e : SelectEvent)
| DismissAlert
| Settle (i : nat) (r : Response)
| SettleLoad (r : option LoadData).

Section Component.

(** The identifier generator of wavesurfer.js, see [WaveSurfer.add]. *)
Variable getId : nat -> string.

(** [wavesurfer.addRegion(params)] *)
Definition addRegion (p : WaveSurfer.Params) : M nat :=
  fun w =>
    let '(a, v) := WaveSurfer.add getId p (ws w) in
    (with_ws v w, Ret a).

(** [loadRegions(regions)] *)
Definition loadRegions (regions : list WaveSurfer.Params) : M unit :=
  s ← getState;
  forEach (fun p =>
             (if wavesurfer s then mret tt else throw Js.TypeError);;
             addRegion p;;
             mret tt)
          regions.

(** The [.then] of [axios.all([axios.get(labelsUrl), axios.get(dataUrl)])].
    The calls [drawBuffer] and [zoom] after [wavesurfer.load] act on
    the canvas only. *)
Definition load_then (d : LoadData) : M unit :=
  setState
    {| u_isPlaying := None; u_labels := Some (a_labels d);
       u_isDataLoading := Some false;
       u_wavesurfer := None; u_referenceTranscription := None;
       u_isMarkedForReview := None; u_selectedSegment := None;
       u_isSegmentDeleting := None; u_isSegmentSaving := None;
       u_errorMessage := None; u_successMessage := None; u_filename := None |};;
  let regions := map to_region (a_segmentations d) in
  setState
    {| u_isPlaying := None; u_labels := None; u_isDataLoading := Some false;
       u_wavesurfer := None;
       u_referenceTranscription := Some (a_reference_transcription d);
       u_isMarkedForReview := Some (a_is_marked_for_review d);
       u_selectedSegment := None;
       u_isSegmentDeleting := None; u_isSegmentSaving := None;
       u_errorMessage := None; u_successMessage := None;
       u_filename := Some (a_filename d) |};;
  wavesurferLoad ("/audios/" +:+ Js.to_string (a_filename d));;
  setState
    {| u_isPlaying := None; u_labels := None; u_isDataLoading := None;
       u_wavesurfer := Some true; u_referenceTranscription := None;
       u_isMarkedForReview := None; u_selectedSegment := None;
       u_isSegmentDeleting := None; u_isSegmentSaving := None;
       u_errorMessage := None; u_successMessage := None; u_filename := None |};;
  loadRegions regions.

Definition load_catch : M unit :=
  setState (patch_loading false).

(** The handler of ["ready"], with [duration = wavesurfer.getDuration()] *)
Definition onReady (duration : Q) : M unit :=
  ks ← regionKeys;
  if bool_decide (length ks = 0%nat) then
    addRegion {| WaveSurfer.p_start := 0%Q;
                 WaveSurfer.p_end := duration;
                 WaveSurfer.p_data := None |};;
    ks' ← regionKeys;
    let firstRegionKey := default "undefined" (head ks') in
    r ← listGet firstRegionKey;
    setState (patch_selected r)
  else mret tt.

(** The handler of ["region-click"]; [r.play()] acts on the audio only. *)
Definition onRegionClick (r : nat) : M unit :=
  setState
    {| u_isPlaying := Some true; u_labels := None; u_isDataLoading := None;
       u_wavesurfer := None; u_referenceTranscription := None;
       u_isMarkedForReview := None; u_selectedSegment := Some (Some r);
       u_isSegmentDeleting := None; u_isSegmentSaving := None;
       u_errorMessage := None; u_successMessage := None; u_filename := None |}.

(** A region drawn by dragging ([enableDragSelection]): the plug-in adds
    a region without [data]. *)
Definition onRegionDrawn (s e : Q) : M unit :=
  addRegion {| WaveSurfer.p_start := s; WaveSurfer.p_end := e;
               WaveSurfer.p_data := None |};;
  mret tt.

(** A region dragged or resized: the plug-in rewrites its bounds in place. *)
Definition onRegionResized (a : nat) (s e : Q) : M unit :=
  fun w => (with_ws (WaveSurfer.update a (WaveSurfer.set_range s e) (ws w)) w, Ret tt).

(** [componentDidMount()], without the request for the list of items
    (the "Next" link), which touches none of the fields kept in [State]
    but the loading flag and the error message. *)
Definition componentDidMount : M unit :=
  s ← getState;
  setState (patch_loading true);;
  showSegmentTranscription None;;
  axiosAll [ {| method := GET; url := labelsUrl s; body := NoBody |};
             {| method := GET; url := dataUrl s; body := NoBody |} ].

(** [promise.then(f).catch(g)] once the promise is settled: an exception
    of [f] is caught by [g] too. *)
Definition settle (p : Pending) (r : Response) : M unit :=
  match p, r with
  | PDelete v a, Fulfilled _ => try_catch (delete_then v a) delete_catch
  | PDelete _ _, Rejected => delete_catch
  | PCreate a, Fulfilled d => try_catch (create_then a d) save_catch
  | PCreate _, Rejected => save_catch
  | PUpdate, Fulfilled _ => try_catch update_then save_catch
  | PUpdate, Rejected => save_catch
  | PReview, Fulfilled d => try_catch (review_then d) review_catch
  | PReview, Rejected => review_catch
  end.

(** Taking the [i]-th waiting continuation out of [inflight]. *)
Definition take (i : nat) : M (option Pending) :=
  fun w => (with_net (net w) (delete i (inflight w)) w, Ret (inflight w !! i)).

Definition handler (ev : Event) : M unit :=
  match ev with
  | Ready d => onReady d
  | RegionIn r => showSegmentTranscription (Some r)
  | RegionOut => showSegmentTranscription None
  | RegionClick r => onRegionClick r
  | RegionDrawn s e => onRegionDrawn s e
  | RegionResized r s e => onRegionResized r s e
  | Paused => setState (patch_playing false)
  | ClickPlay => handlePlay
  | ClickPause => handlePause
  | ToggleReview c => handleIsMarkedForReview c
  | ClickDelete => handleSegmentDelete
  | ClickSave => handleSegmentSave
  | TypeTranscription v => handleTranscriptionChange v
  | ChangeLabel k e => handleLabelChange k e
  | DismissAlert => handleAlertDismiss
  | Settle i r =>
      p ← take i;
      match p with
      | Some p => settle p r
      | None => mret tt
      end
  | SettleLoad (Some d) => try_catch (load_then d) load_catch
  | SettleLoad None => load_catch
  end.

(** One turn of the event loop: an exception that escapes a handler
    ends the handler and leaves what it had written. *)
Definition step (ev : Event) (w : World) : World :=
  fst (handler ev w).

Definition run (evs : list Event) (w : World) : World :=
  fold_left (fun w ev => step ev w) evs w.

End Component.

(** The constructor: [this.state] for the route parameters, an empty
    wavesurfer instance, nothing sent. *)
Definition initial (projectId dataId : Z) : World :=
  {| st :=
       {| isPlaying := false;
          labels := ∅;
          labelsUrl :=
            "/api/projects/" +:+ Js.to_string (Js.Num projectId) +:+ "/labels";
          dataUrl :=
            "/api/projects/" +:+ Js.to_string (Js.Num projectId) +:+ "/data/"
            +:+ Js.to_string (Js.Num dataId);
          segmentationUrl :=
            "/api/projects/" +:+ Js.to_string (Js.Num projectId) +:+ "/data/"
            +:+ Js.to_string (Js.Num dataId) +:+ "/segmentations";
          isDataLoading := false;
          wavesurfer := false;
          referenceTranscription := Js.Null;
          isMarkedForReview := false;
          selectedSegment := None;
          isSegmentDeleting := false;
          isSegmentSaving := false;
          errorMessage := Js.Null;
          successMessage := Js.Null;
          filename := Js.Undefined |};
     ws := WaveSurfer.empty;
     segmentTranscription := Js.Undefined;
     net := [];
     inflight := [] |}.

(** ** Observations used in the statements *)

(** The [segmentation_id] of the region object at address [a]. *)
Definition backendId (w : World) (a : nat) : option Js.value :=
  (fun r => segmentation_id (WaveSurfer.data r)) <$> WaveSurfer.heap (ws w) !! a.

(** An identifier as the backend assigns them: a positive integer. *)
Definition has_backend_id (v : Js.value) : bool :=
  match v with
  | Js.Num n => 0 <? n
  | _ => false
  end.

(** No identifier: the property is missing or [null]. *)
Definition no_backend_id (v : Js.value) : bool :=
  match v with
  | Js.Undefined | Js.Null => true
  | _ => false
  end.

(** The body that [handleSegmentSave] sends for a region. *)
Definition payload_of (r : WaveSurfer.Region) : Body :=
  SegmentBody {| b_start := WaveSurfer.start r;
                 b_end := WaveSurfer.end_ r;
                 b_transcription := transcription (WaveSurfer.data r);
                 b_annotations := annotations (WaveSurfer.data r) |}.

(** [ev] settles, fulfilled and with a body, a create parked for the
    region at [a]: the one event that runs the assignment in [create_then]. *)
Definition assigns (a : nat) (ev : Event) (w : World) : bool :=
  match ev with
  | Settle i (Fulfilled (Some _)) => bool_decide (inflight w !! i = Some (PCreate a))
  | _ => false
  end.



(** The Annotation Entry that [handleLabelChange] builds for a label
    of the catalogue from the state of its control. *)
Definition entry_for (l : LabelDef) (e : SelectEvent) : Annotation :=
  if decide (l_type l = "multiselect") then
    {| label_id := l_label_id l; values := Multi (e_selectedOptions e) |}
  else
    {| label_id := l_label_id l; values := Single (e_value e) |}.

(** The entry that [handleLabelChange] builds from what [labels[key]]
    evaluates to. *)
Definition member_entry (m : LabelsMember) (e : SelectEvent) : Annotation :=
  if bool_decide (member_type m = Js.Str "multiselect") then
    {| label_id := member_label_id m; values := Multi (e_selectedOptions e) |}
  else
    {| label_id := member_label_id m; values := Single (e_value e) |}.

(** [region.data.annotations && region.data.annotations[key]] *)
Definition annotation_of (r : WaveSurfer.Region) (key : string) : option Annotation :=
  match annotations (WaveSurfer.data r) with
  | Some m => m !! key
  | None => None
  end.

(** The computation [c] leaves the identifier of the object at [a] as it is. *)
Definition keeps {A : Type} (a : nat) (c : M A) : Prop :=
  forall (w : World) (v : Js.value),
    backendId w a = Some v -> backendId (fst (c w)) a = Some v.

(** No event of the trace [evs], run from [w], is one that [assigns] to [a]. *)
Fixpoint never_assigned (getId : nat -> string) (a : nat) (evs : list Event)
    (w : World) : bool :=
  match evs with
  | [] => true
  | ev :: evs' =>
      negb (assigns a ev w) && never_assigned getId a evs' (step getId ev w)
  end.

(** The region object that [regions.add(p)] builds under the id [k]. *)
Definition region_of (k : string) (p : WaveSurfer.Params) : WaveSurfer.Region :=
  {| WaveSurfer.id := k;
     WaveSurfer.start := WaveSurfer.p_start p;
     WaveSurfer.end_ := WaveSurfer.p_end p;
     WaveSurfer.data := default empty_data (WaveSurfer.p_data p) |}.

(** The wavesurfer instance after [addRegion] on each of [ps] in turn. *)
Fixpoint add_all (getId : nat -> string) (ps : list WaveSurfer.Params)
    (v : WaveSurfer.t) : WaveSurfer.t :=
  match ps with
  | [] => v
  | p :: ps' => add_all getId ps' (snd (WaveSurfer.add getId p v))
  end.

(** The objects made for [ps] when the generator stands at its [n]-th draw. *)
Fixpoint regions_from (getId : nat -> string) (n : nat)
    (ps : list WaveSurfer.Params) : list WaveSurfer.Region :=
  match ps with
  | [] => []
  | p :: ps' => region_of (getId n) p :: regions_from getId (S n) ps'
  end.

(** The list entries for [len] objects made from the [n]-th draw on and
    stored from address [a] on, when no two ids collide. *)
Fixpoint entries_from (getId : nat -> string) (n a len : nat) : list (string * nat) :=
  match len with
  | O => []
  | S len' => (getId n, a) :: entries_from getId (S n) (S a) len'
  end.

(** ** Sample worlds

    Concrete inputs on which the statements below are instantiated. *)

Definition ex_getId (n : nat) : string := "wavesurfer_" +:+ pretty n.

Definition ex_labels : gmap string LabelDef :=
  {[ "mood" := {| l_label_id := Js.Num 1; l_type := "select";
                  l_values := [(Js.Num 3, "calm"); (Js.Num 4, "tense")] |};
     "tags" := {| l_label_id := Js.Num 2; l_type := "multiselect";
                  l_values := [(Js.Num 2, "noise"); (Js.Num 5, "music")] |} ]}.

Definition ex_segmentation (i : Z) (s e : Q) (t : string) : Segmentation :=
  {| s_segmentation_id := Js.Num i; s_start_time := s; s_end_time := e;
     s_transcription := Js.Str t; s_annotations := None |}.

Definition ex_load (segs : list Segmentation) : LoadData :=
  {| a_labels := ex_labels;
     a_reference_transcription := Js.Null;
     a_is_marked_for_review := false;
     a_segmentations := segs;
     a_filename := Js.Str "clip.wav" |}.

(** The page of item 2 of project 1, mounted. *)
Definition ex_mounted : World :=
  fst (componentDidMount (initial 1 2)).

(** The backend knows one segment, number 7; the user has clicked it. *)
Definition ex_synced : World :=
  run ex_getId
      [SettleLoad (Some (ex_load [ex_segmentation 7 0 (3 # 2) "hello"]));
       Ready 10; RegionClick 0]
      ex_mounted.

(** As [ex_synced], before the click: loaded, nothing selected. *)
Definition ex_loaded : World :=
  run ex_getId
      [SettleLoad (Some (ex_load [ex_segmentation 7 0 (3 # 2) "hello"]));
       Ready 10]
      ex_mounted.

(** The backend knows no segment; the region made at ["ready"] is selected. *)
Definition ex_fresh : World :=
  run ex_getId [SettleLoad (Some (ex_load [])); Ready 10] ex_mounted.

(** ** Further parts of the component

    The parts of [annotate.js] around the segment handlers: what
    [render()] shows of the selected record, the route parameter read
    by the constructor and written by the "Next" link, and the request
    for the page of items. *)

(** *** String methods used by the constructor *)

Module JsString.

(** [s.includes(c)] for a one-character [c] *)
Fixpoint includes (c : ascii) (s : string) : bool :=
  match s with
  | EmptyString => false
  | String c' s' => Ascii.eqb c' c || includes c s'
  end.

(** [s.split(sep)] for a one-character separator *)
Fixpoint split (sep : ascii) (s : string) : list string :=
  match s with
  | EmptyString => [EmptyString]
  | String c s' =>
      if Ascii.eqb c sep then EmptyString :: split sep s'
      else match split sep s' with
           | h :: t => String c h :: t
           | [] => [String c EmptyString]
           end
  end.

(** [s.lastIndexOf(c)] for a one-character [c]: [-1] when [c] does not occur *)
Fixpoint lastIndexOf (c : ascii) (s : string) : Z :=
  match s with
  | EmptyString => -1
  | String c' s' =>
      let i := lastIndexOf c s' in
      if 0 <=? i then i + 1
      else if Ascii.eqb c' c then 0 else -1
  end.

(** The first [n] characters, all of [s] when it is shorter *)
Fixpoint firstChars (n : nat) (s : string) : string :=
  match n, s with
  | O, _ => EmptyString
  | S _, EmptyString => EmptyString
  | S n', String c s' => String c (firstChars n' s')
  end.

(** [s.substr(0, n)]: a length that is not positive gives the empty string *)
Definition substr0 (n : Z) (s : string) : string :=
  if n <=? 0 then EmptyString else firstChars (Z.to_nat n) s.

End JsString.

(** *** The constructor and the "Next" link *)

(** [dataParams = this.props.match.params.dataid.split("&")] *)
Definition ctor_dataParams (dataid : string) : list string :=
  JsString.split "&" dataid.

(** [fileName = dataParams[1]], [None] for [undefined] *)
Definition ctor_fileName (dataid : string) : option string :=
  ctor_dataParams dataid !! 1%nat.

(** [youtubeId = dataParams[1].split(".")[0].substr(0, fileName.lastIndexOf("_"))];
    the call of [split] on [undefined] throws. *)
Definition ctor_youtubeId (dataid : string) : outcome string :=
  match ctor_dataParams dataid !! 1%nat with
  | None => Throw Js.TypeError
  | Some fileName =>
      Ret (JsString.substr0 (JsString.lastIndexOf "_" fileName)
                            (default EmptyString (head (JsString.split "." fileName))))
  end.

(** [{this.state.youtubeId ? <div className="video-responsive"> ... : null}] *)
Definition render_video (youtubeId : string) : bool :=
  Js.truthy (Js.Str youtubeId).

(** The fields of [this.state] behind the "Next" link *)
Record Nav : Type := mkNav {
  nextDataId : Js.value;
  nextFileName : Js.value;
  nextYoutubeStartTime : Js.value
}.

(** [`${nextDataId}&${nextFileName}&${nextYoutubeStartTime}`], the
    segment of the "Next" link that the route hands to the constructor
    as [dataid] *)
Definition render_next_dataid (n : Nav) : string :=
  Js.to_string (nextDataId n) +:+ "&" +:+ Js.to_string (nextFileName n)
  +:+ "&" +:+ Js.to_string (nextYoutubeStartTime n).

(** *** The request for the page of items *)








(** *** What [render()] shows of the selected record and of the messages *)

(** [value={(selectedSegment && selectedSegment.data.transcription) || ""}] *)
Definition render_transcription (w : World) : Js.value :=
  match selectedSegment (st w) with
  | None => Js.Str ""
  | Some a =>
      match WaveSurfer.heap (ws w) !! a with
      | Some r => Js.or (transcription (WaveSurfer.data r)) (Js.Str "")
      | None => Js.Str ""
      end
  end.

(** Truthiness of [values]: an array is truthy, a string unless empty *)
Definition values_truthy (v : AnnValues) : bool :=
  match v with
  | Single s => negb (String.eqb s "")
  | Multi _ => true
  end.

(** [value={(selectedSegment && selectedSegment.data.annotations &&
    selectedSegment.data.annotations[key] &&
    selectedSegment.data.annotations[key]["values"]) ||
    (value["type"] === "multiselect" ? [] : "")}] *)
Definition render_select_value (w : World) (key : string) (l : LabelDef) : AnnValues :=
  let fallback := if decide (l_type l = "multiselect") then Multi [] else Single "" in
  match selectedSegment (st w) with
  | None => fallback
  | Some a =>
      match WaveSurfer.heap (ws w) !! a with
      | Some r =>
          match annotation_of r key with
          | Some en => if values_truthy (values en) then values en else fallback
          | None => fallback
          end
      | None => fallback
      end
  end.

(** [{successMessage ? <Alert type="success" message={successMessage} /> : null}] *)
Definition render_successAlert (s : State) : option Js.value :=
  if Js.truthy (successMessage s) then Some (successMessage s) else None.

(** The events of playback: the audio position entering or leaving a
    region, the pause of the audio, the play and pause buttons. *)
Definition is_playback (ev : Event) : bool :=
  match ev with
  | RegionIn _ | RegionOut | Paused | ClickPlay | ClickPause => true
  | _ => false
  end.

(** A sample world whose only segment carries the identifier 0; the
    user has clicked it. *)
Definition ex_zero : World :=
  run ex_getId
      [SettleLoad (Some (ex_load [ex_segmentation 0 0 (3 # 2) "hello"]));
       Ready 10; RegionClick 0]
      ex_mounted.

(** *** Invariants *)

(** [wavesurfer.regions.list] is sound: no key twice, and every key is
    the [id] of the region object stored under it. *)
Definition list_ok (v : WaveSurfer.t) : Prop :=
  NoDup (WaveSurfer.keys (WaveSurfer.rlist v))
  /\ forall (k : string) (a : nat),
       WaveSurfer.get k (WaveSurfer.rlist v) = Some a ->
       exists r, WaveSurfer.heap v !! a = Some r /\ WaveSurfer.id r = k.

Definition list_sound (w : World) : Prop := list_ok (ws w).

(** The computation [c] keeps the property [P] of the world, also when
    it ends with an exception. *)
Definition inv {A : Type} (P : World -> Prop) (c : M A) : Prop :=
  forall w : World, P w -> P (fst (c w)).

(** ** Basic facts: the monad, the region list, the primitives *)

Lemma bind_run {A B : Type} (c : M A) (k : A -> M B) (w : World) :
  (c ≫= k) w =
  match c w with
  | (w', Ret x) => k x w'
  | (w', Throw e) => (w', Throw e)
  end.
Proof. reflexivity. Qed.

Lemma has_backend_id_truthy (v : Js.value) :
  has_backend_id v = true -> Js.truthy v = true.
Proof.
  destruct v as [| |b|n|s]; simpl; try discriminate.
  intros H. apply Z.ltb_lt in H.
  destruct (Z.eqb_spec n 0) as [->|]; [lia | reflexivity].
Qed.

Lemma has_backend_id_not_null (v : Js.value) :
  has_backend_id v = true -> Js.is_null (Js.with_default Js.Null v) = false.
Proof. destruct v; simpl; try discriminate; reflexivity. Qed.

Lemma has_backend_id_default (v : Js.value) :
  has_backend_id v = true -> Js.with_default Js.Null v = v.
Proof. destruct v; simpl; try discriminate; reflexivity. Qed.

Lemma no_backend_id_falsy (v : Js.value) :
  no_backend_id v = true -> Js.truthy v = false.
Proof. destruct v; simpl; try discriminate; reflexivity. Qed.

Lemma no_backend_id_null (v : Js.value) :
  no_backend_id v = true -> Js.is_null (Js.with_default Js.Null v) = true.
Proof. destruct v; simpl; try discriminate; reflexivity. Qed.

(** What [handleSegmentSave] does on a selected record, by the test it makes. *)
Lemma handleSegmentSave_selected (w : World) (a : nat) (r : WaveSurfer.Region) :
  selectedSegment (st w) = Some a ->
  WaveSurfer.heap (ws w) !! a = Some r ->
  handleSegmentSave w =
  let v := Js.with_default Js.Null (segmentation_id (WaveSurfer.data r)) in
  let w1 := with_st (merge (patch_isSaving true) (st w)) w in
  if Js.is_null v then
    (with_net (net w ++ [ {| method := POST; url := segmentationUrl (st w);
                             body := payload_of r |} ])
              (inflight w ++ [PCreate a]) w1, Ret tt)
  else
    (with_net (net w ++ [ {| method := PUT;
                             url := segmentationUrl (st w) +:+ "/" +:+ Js.to_string v;
                             body := payload_of r |} ])
              (inflight w ++ [PUpdate]) w1, Ret tt).
Proof.
  intros Hsel Hr.
  unfold handleSegmentSave.
  rewrite bind_run. unfold getState at 1.
  rewrite bind_run, Hsel. simpl notNull. unfold mret at 1, M_ret at 1.
  rewrite bind_run. unfold region at 1. rewrite Hr. simpl.
  destruct (Js.is_null _); reflexivity.
Qed.

Lemma take_last (w : World) (l : list Pending) (p : Pending) :
  inflight w = l ++ [p] ->
  take (length l) w = (with_net (net w) l w, Ret (Some p)).
Proof.
  intros H. unfold take. rewrite H.
  rewrite list_lookup_middle by reflexivity.
  rewrite delete_middle, app_nil_r. reflexivity.
Qed.

(** The continuations of a save other than the success of a create
    write to [this.state] only. *)
Lemma settle_update_ws (r : Response) (w : World) :
  ws (fst (settle PUpdate r w)) = ws w.
Proof. destruct r; reflexivity. Qed.

(** *** The region list *)

Lemma get_del_eq (k : string) (l : list (string * nat)) :
  WaveSurfer.get k (WaveSurfer.del k l) = None.
Proof.
  induction l as [|[k' a'] l IH]; simpl; [reflexivity|].
  destruct (decide (k = k')) as [E|N]; [exact IH|].
  simpl. destruct (decide (k = k')); [contradiction | exact IH].
Qed.

Lemma get_del_ne (k k' : string) (l : list (string * nat)) :
  k <> k' -> WaveSurfer.get k' (WaveSurfer.del k l) = WaveSurfer.get k' l.
Proof.
  intros Hne. induction l as [|[k0 a0] l IH]; simpl; [reflexivity|].
  destruct (decide (k = k0)) as [<-|N].
  - destruct (decide (k' = k)) as [E|_]; [congruence | exact IH].
  - simpl. destruct (decide (k' = k0)); [reflexivity | exact IH].
Qed.

Lemma put_fresh (k : string) (a : nat) (l : list (string * nat)) :
  k ∉ WaveSurfer.keys l -> WaveSurfer.put k a l = l ++ [(k, a)].
Proof.
  induction l as [|[k' a'] l IH]; simpl; intros Hk; [reflexivity|].
  apply not_elem_of_cons in Hk as [Hne Hk].
  destruct (decide (k = k')); [contradiction|]. rewrite IH by exact Hk. reflexivity.
Qed.

(** *** Deleting *)

(** What [handleSegmentDelete] does on a selected record, by the test it makes. *)
Lemma handleSegmentDelete_selected (w : World) (a : nat) (r : WaveSurfer.Region) :
  selectedSegment (st w) = Some a ->
  WaveSurfer.heap (ws w) !! a = Some r ->
  handleSegmentDelete w =
  let w1 := with_st (merge (patch_deleting true) (st w)) w in
  if Js.truthy (segmentation_id (WaveSurfer.data r)) then
    (with_net (net w ++ [ {| method := DELETE;
                             url := segmentationUrl (st w) +:+ "/"
                                    +:+ Js.to_string (segmentation_id (WaveSurfer.data r));
                             body := NoBody |} ])
              (inflight w ++ [PDelete (wavesurfer (st w)) a]) w1, Ret tt)
  else
    (removeSelected (wavesurfer (st w)) a ≫= fun _ => setState patch_deleted) w1.
Proof.
  intros Hsel Hr.
  unfold handleSegmentDelete.
  rewrite bind_run. unfold getState at 1.
  rewrite bind_run. unfold setState at 1.
  rewrite bind_run, Hsel. simpl notNull. unfold mret at 1, M_ret at 1.
  rewrite bind_run. unfold region at 1. simpl ws. rewrite Hr. simpl notNull.
  unfold mret at 1, M_ret at 1.
  destruct (Js.truthy _); reflexivity.
Qed.

(** [list[selectedSegment.id].remove()] on a record that is in the list *)
Lemma removeSelected_listed (w : World) (a : nat) (r : WaveSurfer.Region) :
  WaveSurfer.heap (ws w) !! a = Some r ->
  WaveSurfer.get (WaveSurfer.id r) (WaveSurfer.rlist (ws w)) = Some a ->
  removeSelected true a w =
  (with_ws {| WaveSurfer.heap := WaveSurfer.heap (ws w);
              WaveSurfer.rlist := WaveSurfer.del (WaveSurfer.id r) (WaveSurfer.rlist (ws w));
              WaveSurfer.draws := WaveSurfer.draws (ws w) |} w, Ret tt).
Proof.
  intros Hr Hl. unfold removeSelected.
  rewrite bind_run. unfold mret at 1, M_ret at 1.
  rewrite bind_run. unfold region at 1. rewrite Hr. simpl notNull.
  unfold mret at 1, M_ret at 1.
  rewrite bind_run. unfold listed at 1. rewrite Hl. simpl notNull.
  unfold mret at 1, M_ret at 1.
  unfold regionRemove, WaveSurfer.remove. rewrite Hr. reflexivity.
Qed.

Lemma settle_delete_rejected (v : bool) (a : nat) (w : World) :
  ws (fst (settle (PDelete v a) Rejected w)) = ws w
  /\ selectedSegment (st (fst (settle (PDelete v a) Rejected w)))
     = selectedSegment (st w).
Proof. split; reflexivity. Qed.

(** *** Editing *)

Lemma labels_get_own (labels : gmap string LabelDef) (key : string) (l : LabelDef) :
  labels !! key = Some l -> labels_get labels key = Some (OwnLabel l).
Proof. intros H. unfold labels_get. rewrite H. reflexivity. Qed.

Lemma member_entry_own (l : LabelDef) (e : SelectEvent) :
  member_entry (OwnLabel l) e = entry_for l e.
Proof.
  unfold member_entry, entry_for. simpl.
  destruct (decide (l_type l = "multiselect")) as [E|N].
  - rewrite bool_decide_eq_true_2 by congruence. reflexivity.
  - rewrite bool_decide_eq_false_2 by congruence. reflexivity.
Qed.

(** What [handleLabelChange] does on a selected record when
    [labels[key]] is not [undefined]: the entry of [key] is set in the
    annotations of the record (an empty object when there were none),
    nothing else moves. *)
Lemma handleLabelChange_member (w : World) (a : nat) (r : WaveSurfer.Region)
    (key : string) (m : LabelsMember) (e : SelectEvent) :
  selectedSegment (st w) = Some a ->
  WaveSurfer.heap (ws w) !! a = Some r ->
  labels_get (labels (st w)) key = Some m ->
  handleLabelChange key e w
  = (with_st (merge (patch_selected (Some a)) (st w))
       (with_ws {| WaveSurfer.heap :=
                     <[a := WaveSurfer.set_data
                              (set_annotations
                                 (Some (<[key := member_entry m e]>
                                          (default ∅ (annotations (WaveSurfer.data r)))))
                                 (WaveSurfer.data r)) r]>
                       (WaveSurfer.heap (ws w));
                   WaveSurfer.rlist := WaveSurfer.rlist (ws w);
                   WaveSurfer.draws := WaveSurfer.draws (ws w) |} w),
     Ret tt).
Proof.
  intros Hsel Hr Hm.
  assert (Hlt : (a < length (WaveSurfer.heap (ws w)))%nat)
    by (eapply lookup_lt_Some; exact Hr).
  unfold handleLabelChange.
  rewrite bind_run. unfold getState at 1.
  rewrite bind_run, Hsel. simpl notNull. unfold mret at 1, M_ret at 1.
  rewrite bind_run. unfold writeData at 1, WaveSurfer.update at 1. rewrite Hr.
  rewrite bind_run, Hm. simpl notNull. unfold mret at 1, M_ret at 1.
  rewrite bind_run. unfold writeData at 1, WaveSurfer.update at 1. simpl ws.
  simpl WaveSurfer.heap. rewrite list_lookup_insert_eq by exact Hlt.
  rewrite list_insert_insert_eq. reflexivity.
Qed.

(** What [handleLabelChange] does on a selected record for a label of
    the catalogue: the entry of [key] is set in the annotations of the
    record (an empty object when there were none), nothing else moves. *)
Lemma handleLabelChange_selected (w : World) (a : nat) (r : WaveSurfer.Region)
    (key : string) (l : LabelDef) (e : SelectEvent) :
  selectedSegment (st w) = Some a ->
  WaveSurfer.heap (ws w) !! a = Some r ->
  labels (st w) !! key = Some l ->
  exists w1,
    handleLabelChange key e w = (w1, Ret tt)
    /\ WaveSurfer.heap (ws w1) !! a
       = Some (WaveSurfer.set_data
                 (set_annotations
                    (Some (<[key := entry_for l e]> (default ∅ (annotations (WaveSurfer.data r)))))
                    (WaveSurfer.data r)) r)
    /\ selectedSegment (st w1) = Some a
    /\ labels (st w1) = labels (st w)
    /\ WaveSurfer.rlist (ws w1) = WaveSurfer.rlist (ws w)
    /\ net w1 = net w.
Proof.
  intros Hsel Hr Hl.
  assert (Hlt : (a < length (WaveSurfer.heap (ws w)))%nat)
    by (eapply lookup_lt_Some; exact Hr).
  eexists. split.
  - apply (handleLabelChange_member w a r key (OwnLabel l) e Hsel Hr).
    apply labels_get_own, Hl.
  - rewrite member_entry_own. simpl.
    rewrite list_lookup_insert_eq by exact Hlt.
    repeat split.
Qed.

(** What [handleTranscriptionChange] and [handleLabelChange] do without
    a selection: the first property read throws, nothing was written. *)
Lemma handleTranscriptionChange_unselected (w : World) (value : string) :
  selectedSegment (st w) = None ->
  handleTranscriptionChange value w = (w, Throw Js.TypeError).
Proof.
  intros Hsel. unfold handleTranscriptionChange.
  rewrite bind_run. unfold getState at 1. rewrite bind_run, Hsel. reflexivity.
Qed.

Lemma handleLabelChange_unselected (w : World) (key : string) (e : SelectEvent) :
  selectedSegment (st w) = None ->
  handleLabelChange key e w = (w, Throw Js.TypeError).
Proof.
  intros Hsel. unfold handleLabelChange.
  rewrite bind_run. unfold getState at 1. rewrite bind_run, Hsel. reflexivity.
Qed.

(** *** Which computations keep the identifier of a region *)

Lemma keeps_ret {A : Type} (a : nat) (x : A) : keeps a (mret x).
Proof. intros w v H. exact H. Qed.

Lemma keeps_throw {A : Type} (a : nat) (e : Js.error) : keeps a (@throw A e).
Proof. intros w v H. exact H. Qed.

Lemma keeps_bind {A B : Type} (a : nat) (c : M A) (k : A -> M B) :
  keeps a c -> (forall x, keeps a (k x)) -> keeps a (c ≫= k).
Proof.
  intros Hc Hk w v H. rewrite bind_run.
  specialize (Hc w v H). destruct (c w) as [w' [x|e]]; simpl in Hc.
  - apply Hk, Hc.
  - exact Hc.
Qed.

Lemma keeps_try_catch (a : nat) (c h : M unit) :
  keeps a c -> keeps a h -> keeps a (try_catch c h).
Proof.
  intros Hc Hh w v H. unfold try_catch.
  specialize (Hc w v H). destruct (c w) as [w' [x|e]]; simpl in Hc.
  - exact Hc.
  - apply Hh, Hc.
Qed.

Lemma keeps_state_only {A : Type} (a : nat) (c : M A) :
  (forall w, ws (fst (c w)) = ws w) -> keeps a c.
Proof. intros Hc w v H. unfold backendId in *. rewrite Hc. exact H. Qed.

Lemma keeps_notNull {A : Type} (a : nat) (o : option A) : keeps a (notNull o).
Proof. destruct o; [apply keeps_ret | apply keeps_throw]. Qed.

Lemma keeps_region (a a' : nat) : keeps a (region a').
Proof.
  apply keeps_state_only. intros w. unfold region.
  destruct (WaveSurfer.heap (ws w) !! a'); reflexivity.
Qed.

Lemma keeps_listed (a : nat) (k : string) : keeps a (listed k).
Proof.
  apply keeps_state_only. intros w. unfold listed.
  destruct (WaveSurfer.get k _); reflexivity.
Qed.

Lemma keeps_regionRemove (a a' : nat) : keeps a (regionRemove a').
Proof.
  intros w v H. unfold backendId, regionRemove, WaveSurfer.remove in *. simpl.
  destruct (WaveSurfer.heap (ws w) !! a'); exact H.
Qed.

Lemma backendId_update (w : World) (a a' : nat) (f : WaveSurfer.Region -> WaveSurfer.Region) :
  (a' = a -> forall r, segmentation_id (WaveSurfer.data (f r))
                       = segmentation_id (WaveSurfer.data r)) ->
  backendId (with_ws (WaveSurfer.update a' f (ws w)) w) a = backendId w a.
Proof.
  intros Hf. unfold backendId, WaveSurfer.update. simpl.
  destruct (WaveSurfer.heap (ws w) !! a') as [r|] eqn:Hr; [|reflexivity]. simpl.
  destruct (decide (a' = a)) as [->|Hne].
  - rewrite list_lookup_insert_eq by (eapply lookup_lt_Some; exact Hr).
    rewrite Hr. simpl. f_equal. apply Hf. reflexivity.
  - rewrite list_lookup_insert_ne by exact Hne. reflexivity.
Qed.

Lemma keeps_writeData (a a' : nat) (f : SegData -> SegData) :
  (a' = a -> forall d, segmentation_id (f d) = segmentation_id d) ->
  keeps a (writeData a' f).
Proof.
  intros Hf w v H. unfold writeData. simpl.
  rewrite backendId_update; [exact H|].
  intros E r. simpl. apply Hf, E.
Qed.

Lemma keeps_addRegion (getId : nat -> string) (a : nat) (p : WaveSurfer.Params) :
  keeps a (addRegion getId p).
Proof.
  intros w v H. unfold backendId, addRegion in *. simpl.
  destruct (WaveSurfer.heap (ws w) !! a) as [r|] eqn:Hr; [|discriminate].
  rewrite lookup_app_l by (eapply lookup_lt_Some; exact Hr).
  rewrite Hr. exact H.
Qed.

Lemma keeps_forEach {A : Type} (a : nat) (f : A -> M unit) (xs : list A) :
  (forall x, keeps a (f x)) -> keeps a (forEach f xs).
Proof.
  intros Hf. induction xs as [|x xs IH]; simpl.
  - apply keeps_ret.
  - apply keeps_bind; [apply Hf | intros _; exact IH].
Qed.

Lemma keeps_if {A : Type} (a : nat) (b : bool) (c1 c2 : M A) :
  keeps a c1 -> keeps a c2 -> keeps a (if b then c1 else c2).
Proof. destruct b; auto. Qed.

Create HintDb keeps.

#[local] Hint Resolve keeps_ret keeps_throw keeps_notNull keeps_region
  keeps_listed keeps_regionRemove keeps_addRegion keeps_if : keeps.

#[local] Hint Extern 1 (keeps _ (setState _)) =>
  apply keeps_state_only; reflexivity : keeps.
#[local] Hint Extern 1 (keeps _ getState) =>
  apply keeps_state_only; reflexivity : keeps.
#[local] Hint Extern 1 (keeps _ (setText _)) =>
  apply keeps_state_only; reflexivity : keeps.
#[local] Hint Extern 1 (keeps _ (axios _ _)) =>
  apply keeps_state_only; reflexivity : keeps.
#[local] Hint Extern 1 (keeps _ (axiosAll _)) =>
  apply keeps_state_only; reflexivity : keeps.
#[local] Hint Extern 1 (keeps _ (wavesurferLoad _)) =>
  apply keeps_state_only; reflexivity : keeps.
#[local] Hint Extern 1 (keeps _ regionKeys) =>
  apply keeps_state_only; reflexivity : keeps.
#[local] Hint Extern 1 (keeps _ (listGet _)) =>
  apply keeps_state_only; reflexivity : keeps.
#[local] Hint Extern 1 (keeps _ (take _)) =>
  apply keeps_state_only; reflexivity : keeps.
#[local] Hint Extern 1 (keeps _ (writeData _ _)) =>
  apply keeps_writeData; intros _ ?; reflexivity : keeps.
#[local] Hint Extern 2 (keeps _ (_ ≫= _)) =>
  apply keeps_bind; [|intros ?] : keeps.
#[local] Hint Extern 2 (keeps _ (try_catch _ _)) =>
  apply keeps_try_catch : keeps.
#[local] Hint Extern 2 (keeps _ (forEach _ _)) =>
  apply keeps_forEach; intros ? : keeps.


Lemma keeps_showSegmentTranscription (a : nat) (reg : option nat) :
  keeps a (showSegmentTranscription reg).
Proof. destruct reg; unfold showSegmentTranscription; auto 20 with keeps. Qed.

Lemma keeps_handleSegmentDelete (a : nat) : keeps a handleSegmentDelete.
Proof. unfold handleSegmentDelete, removeSelected; auto 30 with keeps. Qed.

Lemma keeps_handleSegmentSave (a : nat) : keeps a handleSegmentSave.
Proof. unfold handleSegmentSave; auto 30 with keeps. Qed.

Lemma keeps_handleTranscriptionChange (a : nat) (value : string) :
  keeps a (handleTranscriptionChange value).
Proof. unfold handleTranscriptionChange; auto 30 with keeps. Qed.

Lemma keeps_handleLabelChange (a : nat) (key : string) (e : SelectEvent) :
  keeps a (handleLabelChange key e).
Proof. unfold handleLabelChange; auto 30 with keeps. Qed.

Lemma keeps_load_then (getId : nat -> string) (a : nat) (d : LoadData) :
  keeps a (load_then getId d).
Proof. unfold load_then, loadRegions; auto 30 with keeps. Qed.

Lemma keeps_onReady (getId : nat -> string) (a : nat) (duration : Q) :
  keeps a (onReady getId duration).
Proof. unfold onReady; auto 30 with keeps. Qed.

(** Of the continuations, only the success of a create for [a] itself
    can change the identifier of [a]. *)
Lemma keeps_settle (a : nat) (p : Pending) (r : Response) :
  (forall d, r = Fulfilled (Some d) -> p <> PCreate a) ->
  keeps a (settle p r).
Proof.
  intros Hne.
  destruct p as [v a'| a'| |], r as [[d|]|]; simpl;
    unfold delete_then, delete_catch, removeSelected, create_then, save_catch,
           update_then, review_then, review_catch;
    auto 30 with keeps.
  - apply keeps_try_catch; [|auto with keeps].
    apply keeps_bind; [auto with keeps | intros x].
    apply keeps_bind; [|auto with keeps].
    apply keeps_writeData. intros ->. destruct (Hne d eq_refl eq_refl).
  - intros w v H. exact H.
Qed.


Section Properties.

Variable getId : nat -> string.

Lemma keeps_handler (a : nat) (ev : Event) (w : World) (v : Js.value) :
  assigns a ev w = false ->
  backendId w a = Some v ->
  backendId (step getId ev w) a = Some v.
Proof.
  intros Hev. unfold step. revert v.
  change (forall v, backendId w a = Some v ->
                    backendId (fst (handler getId ev w)) a = Some v).
  destruct ev as [d|r| |r|s e|r s e| | | |c| | |t|k e| |i r|[d|]]; simpl handler;
    try (intros v H;
         lazymatch goal with
         | |- backendId (fst (?c w)) a = Some v =>
             enough (Hk : keeps a c) by exact (Hk w v H)
         end;
         first [ apply keeps_showSegmentTranscription
               | apply keeps_handleSegmentDelete
               | apply keeps_handleSegmentSave
               | apply keeps_handleTranscriptionChange
               | apply keeps_handleLabelChange
               | apply keeps_onReady
               | apply keeps_try_catch; [apply keeps_load_then|]
               | idtac ];
         unfold onRegionClick, onRegionDrawn, handlePlay, handlePause,
                handleIsMarkedForReview, handleAlertDismiss, load_catch;
         auto 30 with keeps; fail).
  - intros v H. unfold onRegionResized. cbn [fst].
    rewrite backendId_update; [exact H | reflexivity].
  - intros v H. rewrite bind_run. unfold take. simpl.
    destruct (inflight w !! i) as [p|] eqn:Hp; [|exact H].
    apply (keeps_settle a p r).
    + intros d ->. simpl in Hev. rewrite Hp in Hev.
      intros ->. rewrite bool_decide_eq_false in Hev. apply Hev. reflexivity.
    + exact H.
Qed.

(** As long as no create for [a] is settled with success, the
    identifier of the object at [a] stays what it is. *)
Lemma run_keeps (a : nat) (evs : list Event) (w : World) (v : Js.value) :
  never_assigned getId a evs w = true ->
  backendId w a = Some v ->
  backendId (run getId evs w) a = Some v.
Proof.
  revert w. induction evs as [|ev evs IH]; intros w Hn H; simpl in *.
  - exact H.
  - apply andb_prop in Hn as [Hev Hn].
    apply negb_true_iff in Hev.
    apply IH; [exact Hn|]. apply keeps_handler; assumption.
Qed.

(** Settling the request that a handler has just parked. *)
Lemma step_settle_last (w : World) (l : list Pending) (p : Pending) (r : Response) :
  inflight w = l ++ [p] ->
  step getId (Settle (length l) r) w = fst (settle p r (with_net (net w) l w)).
Proof.
  intros H. unfold step, handler.
  rewrite bind_run, (take_last w l p H). reflexivity.
Qed.

Lemma number_to_string_small (n : Z) :
  0 <= n -> n < Js.two53 -> Js.to_string (Js.Num n) = pretty n.
Proof.
  intros H0 H1. simpl. unfold Js.number_to_string, Js.nonneg_to_string.
  destruct (Z.ltb_spec n 0); [lia|].
  destruct (Z.ltb_spec n Js.two53); [reflexivity | lia].
Qed.

(** C1. Saving a selected record that has a backend identifier sends one
    PUT and no POST, to [segmentationUrl/identifier], the identifier
    being written as JavaScript writes the number: with all its decimal
    digits when it is below [2^53]. The save leaves the region objects
    as they were, and so does the continuation of the update whatever
    the response is, so that the identifier of the record is the same
    after the save has completed. *)
Theorem save_synced_record_updates (w : World) (a : nat) (r : WaveSurfer.Region) :
  selectedSegment (st w) = Some a ->
  WaveSurfer.heap (ws w) !! a = Some r ->
  has_backend_id (segmentation_id (WaveSurfer.data r)) = true ->
  (exists w1,
      handleSegmentSave w = (w1, Ret tt)
      /\ net w1 = net w ++
           [ {| method := PUT;
                url := segmentationUrl (st w) +:+ "/"
                       +:+ Js.to_string (segmentation_id (WaveSurfer.data r));
                body := payload_of r |} ]
      /\ inflight w1 = inflight w ++ [PUpdate]
      /\ ws w1 = ws w)
  /\ (forall n : Z,
        segmentation_id (WaveSurfer.data r) = Js.Num n ->
        n < Js.two53 ->
        net (fst (handleSegmentSave w))
        = net w ++ [ {| method := PUT;
                        url := segmentationUrl (st w) +:+ "/" +:+ pretty n;
                        body := payload_of r |} ])
  /\ (forall (resp : Response) (w2 : World),
        ws (fst (settle PUpdate resp w2)) = ws w2)
  /\ (forall resp : Response,
        backendId (run getId [ClickSave; Settle (length (inflight w)) resp] w) a
        = Some (segmentation_id (WaveSurfer.data r))).
Proof.
  intros Hsel Hr Hid.
  pose proof (handleSegmentSave_selected w a r Hsel Hr) as Hsave.
  cbv zeta in Hsave.
  rewrite (has_backend_id_not_null _ Hid), (has_backend_id_default _ Hid) in Hsave.
  split; [|split; [|split]].
  - eexists. split; [exact Hsave|]. repeat split.
  - intros n En Hn. rewrite Hsave. cbn [fst]. simpl net.
    rewrite En in Hid |- *. simpl in Hid. apply Z.ltb_lt in Hid.
    rewrite number_to_string_small by lia. reflexivity.
  - intros resp w2. apply settle_update_ws.
  - intros resp. unfold run. simpl fold_left.
    assert (Hstep : step getId ClickSave w = fst (handleSegmentSave w)) by reflexivity.
    rewrite Hstep, Hsave. simpl fst.
    rewrite (step_settle_last _ (inflight w) PUpdate) by reflexivity.
    unfold backendId. rewrite settle_update_ws. simpl. rewrite Hr. reflexivity.
Qed.

Lemma backendId_create_then (w : World) (a : nat) (d : ResponseData) (v : Js.value) :
  backendId w a = Some v ->
  backendId (fst (settle (PCreate a) (Fulfilled (Some d)) w)) a
  = Some (r_segmentation_id d).
Proof.
  unfold backendId. intros H.
  destruct (WaveSurfer.heap (ws w) !! a) as [r|] eqn:Hr; [|discriminate].
  simpl. unfold WaveSurfer.update. rewrite Hr. simpl.
  rewrite list_lookup_insert_eq by (eapply lookup_lt_Some; exact Hr).
  reflexivity.
Qed.

Lemma backendId_drawn (w : World) (s e : Q) :
  backendId (step getId (RegionDrawn s e) w) (length (WaveSurfer.heap (ws w)))
  = Some Js.Undefined.
Proof.
  unfold backendId. simpl.
  rewrite list_lookup_middle by reflexivity. reflexivity.
Qed.

(** C2. A region drawn by the user has no identifier; no event other
    than the success of a create for it gives it one; saving it while it
    has none sends exactly one POST to [segmentationUrl]; and the success
    of that create writes the identifier of the response into the record. *)
Theorem drawn_record_unsynced_until_created (w : World) (s e : Q) :
  let a := length (WaveSurfer.heap (ws w)) in
  let w1 := step getId (RegionDrawn s e) w in
  backendId w1 a = Some Js.Undefined
  /\ (forall evs : list Event,
        never_assigned getId a evs w1 = true ->
        backendId (run getId evs w1) a = Some Js.Undefined)
  /\ (forall (w2 : World) (r : WaveSurfer.Region),
        selectedSegment (st w2) = Some a ->
        WaveSurfer.heap (ws w2) !! a = Some r ->
        no_backend_id (segmentation_id (WaveSurfer.data r)) = true ->
        exists w3,
          handleSegmentSave w2 = (w3, Ret tt)
          /\ net w3 = net w2 ++ [ {| method := POST;
                                     url := segmentationUrl (st w2);
                                     body := payload_of r |} ]
          /\ inflight w3 = inflight w2 ++ [PCreate a]
          /\ ws w3 = ws w2)
  /\ (forall (w2 : World) (d : ResponseData) (v : Js.value),
        backendId w2 a = Some v ->
        backendId (fst (settle (PCreate a) (Fulfilled (Some d)) w2)) a
        = Some (r_segmentation_id d))
  /\ (forall d : ResponseData,
        let w4 := run getId [RegionClick a; ClickSave;
                             Settle (length (inflight w)) (Fulfilled (Some d))] w1 in
        backendId w4 a = Some (r_segmentation_id d)
        /\ exists req, net w4 = net w ++ [req] /\ method req = POST
                       /\ url req = segmentationUrl (st w)).
Proof.
  intros a w1.
  assert (H1 : backendId w1 a = Some Js.Undefined) by apply backendId_drawn.
  split; [exact H1|].
  split; [intros evs Hn; apply run_keeps; assumption|].
  split.
  { intros w2 r Hsel Hr Hid.
    pose proof (handleSegmentSave_selected w2 a r Hsel Hr) as Hsave.
    cbv zeta in Hsave. rewrite (no_backend_id_null _ Hid) in Hsave.
    eexists. split; [exact Hsave|]. repeat split. }
  split; [intros w2 d v; apply backendId_create_then|].
  intros d w4. subst w4. unfold run. simpl fold_left.
  set (w2 := step getId (RegionClick a) w1).
  assert (Hr : WaveSurfer.heap (ws w2) !! a
               = Some {| WaveSurfer.id := getId (WaveSurfer.draws (ws w));
                         WaveSurfer.start := s; WaveSurfer.end_ := e;
                         WaveSurfer.data := empty_data |}).
  { subst w2 w1 a. simpl. rewrite list_lookup_middle by reflexivity. reflexivity. }
  assert (Hsel : selectedSegment (st w2) = Some a) by reflexivity.
  pose proof (handleSegmentSave_selected w2 a _ Hsel Hr) as Hsave.
  cbv zeta in Hsave. simpl Js.is_null in Hsave. cbv iota in Hsave.
  assert (Hstep : step getId ClickSave w2 = fst (handleSegmentSave w2)) by reflexivity.
  rewrite Hstep, Hsave. cbn [fst].
  rewrite (step_settle_last _ (inflight w) (PCreate a)) by reflexivity.
  split.
  - apply (backendId_create_then _ a d Js.Undefined).
    unfold backendId. simpl. simpl in Hr. rewrite Hr. reflexivity.
  - eexists. split; [|split]; [reflexivity | reflexivity | reflexivity].
Qed.

(** C3. Deleting the selected record. With a backend identifier, the
    handler sends one DELETE to [segmentationUrl/identifier] and leaves
    the collection and the selection alone; if the request is rejected
    the record is still in the collection and still selected; if it is
    fulfilled the record leaves the collection and the selection is
    cleared. Without an identifier, the handler sends nothing and removes
    the record at once, without an exception. *)
Theorem delete_selected_record (w : World) (a : nat) (r : WaveSurfer.Region) :
  selectedSegment (st w) = Some a ->
  WaveSurfer.heap (ws w) !! a = Some r ->
  wavesurfer (st w) = true ->
  WaveSurfer.get (WaveSurfer.id r) (WaveSurfer.rlist (ws w)) = Some a ->
  (has_backend_id (segmentation_id (WaveSurfer.data r)) = true ->
     (exists w1,
         handleSegmentDelete w = (w1, Ret tt)
         /\ net w1 = net w ++
              [ {| method := DELETE;
                   url := segmentationUrl (st w) +:+ "/"
                          +:+ Js.to_string (segmentation_id (WaveSurfer.data r));
                   body := NoBody |} ]
         /\ inflight w1 = inflight w ++ [PDelete true a]
         /\ ws w1 = ws w
         /\ selectedSegment (st w1) = Some a)
     /\ (let w' := run getId [ClickDelete; Settle (length (inflight w)) Rejected] w in
         ws w' = ws w
         /\ selectedSegment (st w') = Some a)
     /\ (forall d,
           let w' := run getId [ClickDelete; Settle (length (inflight w)) (Fulfilled d)] w in
           WaveSurfer.rlist (ws w')
           = WaveSurfer.del (WaveSurfer.id r) (WaveSurfer.rlist (ws w))
           /\ WaveSurfer.get (WaveSurfer.id r) (WaveSurfer.rlist (ws w')) = None
           /\ selectedSegment (st w') = None))
  /\ (no_backend_id (segmentation_id (WaveSurfer.data r)) = true ->
      exists w1,
        handleSegmentDelete w = (w1, Ret tt)
        /\ net w1 = net w
        /\ inflight w1 = inflight w
        /\ WaveSurfer.rlist (ws w1)
           = WaveSurfer.del (WaveSurfer.id r) (WaveSurfer.rlist (ws w))
        /\ WaveSurfer.get (WaveSurfer.id r) (WaveSurfer.rlist (ws w1)) = None
        /\ selectedSegment (st w1) = None).
Proof.
  intros Hsel Hr Hws Hl.
  pose proof (handleSegmentDelete_selected w a r Hsel Hr) as Hdel.
  cbv zeta in Hdel. rewrite Hws in Hdel.
  assert (Hstep : step getId ClickDelete w = fst (handleSegmentDelete w)) by reflexivity.
  split.
  - intros Hid. rewrite (has_backend_id_truthy _ Hid) in Hdel.
    split; [|split].
    + eexists. split; [exact Hdel|]. repeat split. exact Hsel.
    + unfold run. simpl fold_left. rewrite Hstep, Hdel. cbn [fst].
      rewrite (step_settle_last _ (inflight w) (PDelete true a)) by reflexivity.
      split; [reflexivity | exact Hsel].
    + intros d. unfold run. simpl fold_left. rewrite Hstep, Hdel. cbn [fst].
      rewrite (step_settle_last _ (inflight w) (PDelete true a)) by reflexivity.
      cbn [settle]. unfold try_catch, delete_then. rewrite bind_run.
      erewrite removeSelected_listed; [|exact Hr|exact Hl].
      simpl. split; [reflexivity | split; [apply get_del_eq | reflexivity]].
  - intros Hid. rewrite (no_backend_id_falsy _ Hid) in Hdel.
    rewrite bind_run in Hdel.
    erewrite removeSelected_listed in Hdel; [|exact Hr|exact Hl].
    eexists. split; [exact Hdel|]. simpl.
    repeat split. apply get_del_eq.
Qed.

(** *** Loading the segments of the backend *)

Lemma add_all_heap (ps : list WaveSurfer.Params) (v : WaveSurfer.t) :
  WaveSurfer.heap (add_all getId ps v)
  = WaveSurfer.heap v ++ regions_from getId (WaveSurfer.draws v) ps.
Proof.
  revert v. induction ps as [|p ps IH]; intros v; simpl.
  - rewrite app_nil_r. reflexivity.
  - rewrite IH. simpl. rewrite <- app_assoc. reflexivity.
Qed.

Lemma regions_from_length (n : nat) (ps : list WaveSurfer.Params) :
  length (regions_from getId n ps) = length ps.
Proof. revert n. induction ps as [|p ps IH]; intros n; simpl; [|rewrite IH]; reflexivity. Qed.

Lemma regions_from_lookup (n i : nat) (ps : list WaveSurfer.Params) (p : WaveSurfer.Params) :
  ps !! i = Some p ->
  regions_from getId n ps !! i = Some (region_of (getId (n + i)) p).
Proof.
  revert n i. induction ps as [|q ps IH]; intros n i H; [discriminate|].
  destruct i as [|i]; simpl in *.
  - injection H as ->. rewrite Nat.add_0_r. reflexivity.
  - rewrite (IH (S n) i H). rewrite Nat.add_succ_r. reflexivity.
Qed.

Lemma put_not_nil (k : string) (a : nat) (l : list (string * nat)) :
  WaveSurfer.put k a l <> [].
Proof. destruct l as [|[k' a'] l]; simpl; [|destruct (decide (k = k'))]; discriminate. Qed.

Lemma add_all_not_nil (ps : list WaveSurfer.Params) (v : WaveSurfer.t) :
  WaveSurfer.rlist v <> [] -> WaveSurfer.rlist (add_all getId ps v) <> [].
Proof.
  revert v. induction ps as [|p ps IH]; intros v H; simpl; [exact H|].
  apply IH. simpl. apply put_not_nil.
Qed.

Lemma keys_app_one (l : list (string * nat)) (k : string) (a : nat) :
  WaveSurfer.keys (l ++ [(k, a)]) = WaveSurfer.keys l ++ [k].
Proof. unfold WaveSurfer.keys. rewrite map_app. reflexivity. Qed.

Lemma add_all_rlist (ps : list WaveSurfer.Params) (v : WaveSurfer.t) :
  NoDup (WaveSurfer.keys (WaveSurfer.rlist v)
         ++ map getId (seq (WaveSurfer.draws v) (length ps))) ->
  WaveSurfer.rlist (add_all getId ps v)
  = WaveSurfer.rlist v
    ++ entries_from getId (WaveSurfer.draws v) (length (WaveSurfer.heap v)) (length ps).
Proof.
  revert v. induction ps as [|p ps IH]; intros v Hnd; simpl.
  - rewrite app_nil_r. reflexivity.
  - simpl in Hnd.
    assert (Hfresh : getId (WaveSurfer.draws v) ∉ WaveSurfer.keys (WaveSurfer.rlist v)).
    { apply NoDup_app in Hnd as (_ & Hd & _). intros Hin.
      apply (Hd _ Hin). left. }
    rewrite IH; simpl.
    + rewrite (put_fresh _ _ _ Hfresh), length_app, <- app_assoc. simpl.
      rewrite Nat.add_1_r. reflexivity.
    + rewrite (put_fresh _ _ _ Hfresh), keys_app_one, <- app_assoc. exact Hnd.
Qed.

Lemma entries_from_seq (n a len : nat) :
  entries_from getId n a len
  = map (fun i => (getId (n + i)%nat, (a + i)%nat)) (seq 0 len).
Proof.
  revert n a. induction len as [|len IH]; intros n a; simpl; [reflexivity|].
  rewrite !Nat.add_0_r. f_equal.
  rewrite IH, <- seq_shift, map_map.
  apply map_ext. intros i. rewrite !Nat.add_succ_r. reflexivity.
Qed.

Lemma forEach_addRegion (ps : list WaveSurfer.Params) (w : World) :
  forEach (fun p => (if true then mret tt else throw Js.TypeError);;
                    addRegion getId p;; mret tt) ps w
  = (with_ws (add_all getId ps (ws w)) w, Ret tt).
Proof.
  revert w. induction ps as [|p ps IH]; intros w.
  - destruct w; reflexivity.
  - simpl forEach. rewrite bind_run.
    change ((mret tt ≫= fun _ => addRegion getId p ≫= fun _ => mret tt) w)
      with (with_ws (snd (WaveSurfer.add getId p (ws w))) w, @Ret unit tt).
    cbv beta iota. rewrite IH. reflexivity.
Qed.

Lemma loadRegions_ready (ps : list WaveSurfer.Params) (w : World) :
  wavesurfer (st w) = true ->
  loadRegions getId ps w = (with_ws (add_all getId ps (ws w)) w, Ret tt).
Proof.
  intros Hw. unfold loadRegions. rewrite bind_run. unfold getState at 1.
  rewrite Hw. apply forEach_addRegion.
Qed.

(** The state and the wavesurfer instance once the data has arrived. *)
Lemma load_then_run (d : LoadData) (w : World) :
  exists s',
    load_then getId d w
    = (with_ws (add_all getId (map to_region (a_segmentations d)) (ws w))
               (with_st s'
                  (with_net (net w ++ [ {| method := GET;
                                           url := "/audios/" +:+ Js.to_string (a_filename d);
                                           body := NoBody |} ])
                            (inflight w) w)), Ret tt)
    /\ selectedSegment s' = selectedSegment (st w)
    /\ wavesurfer s' = true.
Proof.
  eexists. unfold load_then.
  rewrite bind_run. unfold setState at 1.
  rewrite bind_run. unfold setState at 1.
  rewrite bind_run. unfold wavesurferLoad at 1.
  rewrite bind_run. unfold setState at 1.
  rewrite loadRegions_ready by reflexivity.
  split; [reflexivity|]. split; reflexivity.
Qed.

Lemma onReady_nonempty (duration : Q) (w : World) :
  WaveSurfer.rlist (ws w) <> [] -> onReady getId duration w = (w, Ret tt).
Proof.
  intros H. unfold onReady. rewrite bind_run. unfold regionKeys at 1.
  destruct (WaveSurfer.rlist (ws w)) as [|[k a] l]; [contradiction|]. reflexivity.
Qed.

Lemma step_load (d : LoadData) (w : World) :
  exists s',
    step getId (SettleLoad (Some d)) w
    = with_ws (add_all getId (map to_region (a_segmentations d)) (ws w))
              (with_st s'
                 (with_net (net w ++ [ {| method := GET;
                                          url := "/audios/" +:+ Js.to_string (a_filename d);
                                          body := NoBody |} ])
                           (inflight w) w))
    /\ selectedSegment s' = selectedSegment (st w)
    /\ wavesurfer s' = true.
Proof.
  destruct (load_then_run d w) as (s' & H & Hsel & Hw).
  exists s'. split; [|split; assumption].
  unfold step. simpl handler. unfold try_catch. rewrite H. reflexivity.
Qed.

(** C4. When the backend lists N >= 1 segments and wavesurfer holds no
    region yet, loading makes exactly N region objects, the i-th with
    the times, the identifier, the transcription and the annotations of
    the i-th segment; when no two generated ids collide the region list
    has exactly these N entries; and the handler of ["ready"] then
    changes nothing: it adds no region for the whole audio and leaves
    the selection as it is. *)
Theorem hydration_of_nonempty_list (w : World) (d : LoadData) (duration : Q) :
  ws w = WaveSurfer.empty ->
  a_segmentations d <> [] ->
  let segs := a_segmentations d in
  let w1 := step getId (SettleLoad (Some d)) w in
  let w2 := step getId (Ready duration) w1 in
  length (WaveSurfer.heap (ws w1)) = length segs
  /\ (forall (i : nat) (s : Segmentation),
        segs !! i = Some s ->
        WaveSurfer.heap (ws w1) !! i
        = Some {| WaveSurfer.id := getId i;
                  WaveSurfer.start := s_start_time s;
                  WaveSurfer.end_ := s_end_time s;
                  WaveSurfer.data :=
                    {| segmentation_id := s_segmentation_id s;
                       transcription := s_transcription s;
                       annotations := s_annotations s |} |})
  /\ (forall (i : nat) (s : Segmentation),
        segs !! i = Some s -> backendId w1 i = Some (s_segmentation_id s))
  /\ (NoDup (map getId (seq 0 (length segs))) ->
      WaveSurfer.rlist (ws w1) = map (fun i => (getId i, i)) (seq 0 (length segs)))
  /\ selectedSegment (st w1) = selectedSegment (st w)
  /\ w2 = w1.
Proof.
  intros Hws Hne segs w1 w2.
  destruct (step_load d w) as (s' & Hstep & Hsel & Hw).
  fold w1 in Hstep. fold segs in Hstep. rewrite Hws in Hstep.
  assert (Hheap : WaveSurfer.heap (ws w1) = regions_from getId 0 (map to_region segs)).
  { rewrite Hstep. simpl ws. rewrite add_all_heap. reflexivity. }
  assert (Hlook : forall i s, segs !! i = Some s ->
            WaveSurfer.heap (ws w1) !! i = Some (region_of (getId i) (to_region s))).
  { intros i s Hi. rewrite Hheap.
    rewrite (regions_from_lookup 0 i _ (to_region s)); [reflexivity|].
    rewrite list_lookup_fmap, Hi. reflexivity. }
  split; [rewrite Hheap, regions_from_length, length_map; reflexivity|].
  split; [exact Hlook|].
  split; [intros i s Hi; unfold backendId; rewrite (Hlook i s Hi); reflexivity|].
  split.
  { intros Hnd. rewrite Hstep. simpl ws.
    rewrite add_all_rlist; simpl; rewrite length_map.
    - rewrite entries_from_seq. reflexivity.
    - exact Hnd. }
  split; [rewrite Hstep; exact Hsel|].
  subst w2. unfold step at 1. simpl handler.
  rewrite onReady_nonempty; [reflexivity|].
  rewrite Hstep. simpl ws.
  destruct segs as [|s0 segs0] eqn:E; [contradiction|].
  simpl. apply add_all_not_nil. simpl. discriminate.
Qed.

(** C5. When the backend lists no segment and wavesurfer holds no region
    yet, after loading and ["ready"] there is exactly one region object
    and one list entry: a region from 0 to the duration of the audio,
    without data and so without identifier, and it is the selection. *)
Theorem hydration_of_empty_list (w : World) (d : LoadData) (duration : Q) :
  ws w = WaveSurfer.empty ->
  a_segmentations d = [] ->
  let w2 := run getId [SettleLoad (Some d); Ready duration] w in
  WaveSurfer.heap (ws w2)
  = [ {| WaveSurfer.id := getId 0; WaveSurfer.start := 0;
         WaveSurfer.end_ := duration; WaveSurfer.data := empty_data |} ]
  /\ WaveSurfer.rlist (ws w2) = [(getId 0, 0%nat)]
  /\ selectedSegment (st w2) = Some 0%nat
  /\ backendId w2 0 = Some Js.Undefined.
Proof.
  intros Hws Hsegs w2. subst w2. unfold run. simpl fold_left.
  destruct (step_load d w) as (s' & Hstep & Hsel & Hw).
  rewrite Hstep, Hsegs, Hws. simpl add_all.
  unfold step, backendId. simpl.
  rewrite decide_True by reflexivity.
  repeat split.
Qed.

(** C6. On a multi-choice label every change stores the whole list of
    chosen values reported by the control: after two changes in a row
    the annotations of the record are what the second change alone would
    have produced, and the entry of the label holds exactly the second
    list. *)
Theorem multi_choice_stores_replacement (w : World) (a : nat) (r : WaveSurfer.Region)
    (key : string) (l : LabelDef) (e1 e2 : SelectEvent) :
  selectedSegment (st w) = Some a ->
  WaveSurfer.heap (ws w) !! a = Some r ->
  labels (st w) !! key = Some l ->
  l_type l = "multiselect" ->
  exists w1 w2 r2,
    handleLabelChange key e1 w = (w1, Ret tt)
    /\ handleLabelChange key e2 w1 = (w2, Ret tt)
    /\ WaveSurfer.heap (ws w2) !! a = Some r2
    /\ annotations (WaveSurfer.data r2)
       = Some (<[key := {| label_id := l_label_id l;
                           values := Multi (e_selectedOptions e2) |}]>
                 (default ∅ (annotations (WaveSurfer.data r))))
    /\ annotation_of r2 key
       = Some {| label_id := l_label_id l; values := Multi (e_selectedOptions e2) |}.
Proof.
  intros Hsel Hr Hl Hty.
  destruct (handleLabelChange_selected w a r key l e1 Hsel Hr Hl)
    as (w1 & H1 & Hr1 & Hsel1 & Hl1 & _).
  rewrite <- Hl1 in Hl.
  destruct (handleLabelChange_selected w1 a _ key l e2 Hsel1 Hr1 Hl)
    as (w2 & H2 & Hr2 & _).
  exists w1, w2. eexists.
  split; [exact H1|]. split; [exact H2|]. split; [exact Hr2|].
  unfold annotation_of, entry_for. simpl. rewrite decide_True by exact Hty.
  rewrite insert_insert_eq. split; [reflexivity|]. apply lookup_insert_eq.
Qed.

(** C7, as the code has it. Without a selection the two editing
    handlers throw a [TypeError] at their first property read and leave
    the world untouched; the edit controls that call them are not
    rendered then. *)
Theorem edit_without_selection_throws (w : World) (value key : string) (e : SelectEvent) :
  selectedSegment (st w) = None ->
  handleTranscriptionChange value w = (w, Throw Js.TypeError)
  /\ handleLabelChange key e w = (w, Throw Js.TypeError)
  /\ render_editControls (st w) = false.
Proof.
  intros Hsel. split; [|split].
  - apply handleTranscriptionChange_unselected, Hsel.
  - apply handleLabelChange_unselected, Hsel.
  - unfold render_editControls. rewrite Hsel.
    destruct (render_panel (st w)); reflexivity.
Qed.

(** C8. When the request of a save is rejected, be it the POST of a
    create or the PUT of an update, no region object and no list entry
    has changed (times, transcription, annotations and identifier are
    what they were), the record is still selected, and the error message
    ["Error saving segment"] is set and shown. *)
Theorem save_rejected_keeps_edits (w : World) (a : nat) (r : WaveSurfer.Region) :
  selectedSegment (st w) = Some a ->
  WaveSurfer.heap (ws w) !! a = Some r ->
  let w' := run getId [ClickSave; Settle (length (inflight w)) Rejected] w in
  ws w' = ws w
  /\ WaveSurfer.heap (ws w') !! a = Some r
  /\ selectedSegment (st w') = Some a
  /\ errorMessage (st w') = Js.Str "Error saving segment"
  /\ render_errorAlert (st w') = Some (Js.Str "Error saving segment")
  /\ successMessage (st w') = Js.Null
  /\ isSegmentSaving (st w') = false
  /\ inflight w' = inflight w.
Proof.
  intros Hsel Hr w'. subst w'. unfold run. simpl fold_left.
  assert (Hstep : step getId ClickSave w = fst (handleSegmentSave w)) by reflexivity.
  rewrite Hstep, (handleSegmentSave_selected w a r Hsel Hr). cbv zeta.
  destruct (Js.is_null _); cbn [fst].
  - rewrite (step_settle_last _ (inflight w) (PCreate a)) by reflexivity.
    simpl. rewrite Hr, Hsel. repeat split.
  - rewrite (step_settle_last _ (inflight w) PUpdate) by reflexivity.
    simpl. rewrite Hr, Hsel. repeat split.
Qed.

(** C10. On a label that is not multi-choice the entry of the label
    holds the value of the control as it is; when the label has values,
    so that its control is drawn, the first option of the control is the
    placeholder with value ["-1"], and choosing it stores an entry with
    value ["-1"]: the entry is not removed. *)
Theorem single_choice_stores_value_verbatim (w : World) (a : nat)
    (r : WaveSurfer.Region) (key : string) (l : LabelDef) (e : SelectEvent) :
  selectedSegment (st w) = Some a ->
  WaveSurfer.heap (ws w) !! a = Some r ->
  labels (st w) !! key = Some l ->
  l_type l <> "multiselect" ->
  (l_values l <> [] ->
   render_options l
   = Some ("-1" :: map (fun val => Js.to_string (fst val)) (l_values l)))
  /\ (l_values l = [] -> render_options l = None)
  /\ exists w1 r1,
       handleLabelChange key e w = (w1, Ret tt)
       /\ WaveSurfer.heap (ws w1) !! a = Some r1
       /\ annotation_of r1 key
          = Some {| label_id := l_label_id l; values := Single (e_value e) |}
       /\ (e_value e = "-1" ->
           annotation_of r1 key
           = Some {| label_id := l_label_id l; values := Single "-1" |}).
Proof.
  intros Hsel Hr Hl Hty. split; [|split].
  - intros Hv. unfold render_options.
    rewrite bool_decide_eq_false_2
      by (destruct (l_values l); [contradiction | discriminate]).
    rewrite decide_False by exact Hty. reflexivity.
  - intros Hv. unfold render_options. rewrite Hv. reflexivity.
  - destruct (handleLabelChange_selected w a r key l e Hsel Hr Hl)
      as (w1 & H1 & Hr1 & _).
    exists w1. eexists. split; [exact H1|]. split; [exact Hr1|].
    assert (Hentry : annotation_of
              (WaveSurfer.set_data
                 (set_annotations
                    (Some (<[key := entry_for l e]>
                             (default ∅ (annotations (WaveSurfer.data r)))))
                    (WaveSurfer.data r)) r) key
            = Some {| label_id := l_label_id l; values := Single (e_value e) |}).
    { unfold annotation_of, entry_for. simpl.
      rewrite decide_False by exact Hty. apply lookup_insert_eq. }
    split; [exact Hentry|]. intros E. rewrite Hentry, E. reflexivity.
Qed.

End Properties.

Lemma save_synced_record_updates_witness :
  selectedSegment (st ex_synced) = Some 0%nat
  /\ backendId ex_synced 0 = Some (Js.Num 7)
  /\ (exists body,
         net (fst (handleSegmentSave ex_synced))
         = net ex_synced
           ++ [ {| method := PUT;
                   url := "/api/projects/1/data/2/segmentations/7";
                   body := body |} ])
  /\ forall resp : Response,
       backendId (run ex_getId [ClickSave; Settle 0 resp] ex_synced) 0
       = Some (Js.Num 7).
Proof.
  pose proof (save_synced_record_updates ex_getId ex_synced 0
                {| WaveSurfer.id := "wavesurfer_0"; WaveSurfer.start := 0;
                   WaveSurfer.end_ := 3 # 2;
                   WaveSurfer.data := {| segmentation_id := Js.Num 7;
                                         transcription := Js.Str "hello";
                                         annotations := None |} |}
                eq_refl eq_refl eq_refl) as (_ & Hurl & _ & Hid).
  split; [reflexivity | split; [reflexivity |]]. split.
  - eexists. exact (Hurl 7 eq_refl eq_refl).
  - exact Hid.
Defined.

Lemma drawn_record_unsynced_until_created_witness :
  let w1 := step ex_getId (RegionDrawn 2 4) ex_synced in
  backendId w1 1 = Some Js.Undefined
  /\ backendId (run ex_getId [RegionClick 1; TypeTranscription "hi"; ClickSave;
                              Settle 0 Rejected; RegionClick 0; ClickSave;
                              Settle 0 (Fulfilled None)] w1) 1
     = Some Js.Undefined
  /\ backendId (run ex_getId [RegionClick 1; ClickSave;
                              Settle 0 (Fulfilled
                                          (Some {| r_segmentation_id := Js.Num 8;
                                                   r_is_marked_for_review := false |}))]
                    w1) 1
     = Some (Js.Num 8).
Proof.
  destruct (drawn_record_unsynced_until_created ex_getId ex_synced 2 4)
    as (H1 & H2 & _ & _ & H5).
  split; [exact H1|]. split.
  - apply H2. vm_compute. reflexivity.
  - apply H5.
Defined.

Lemma delete_selected_record_witness :
  (let w' := run ex_getId [ClickDelete; Settle 0 Rejected] ex_synced in
   ws w' = ws ex_synced /\ selectedSegment (st w') = Some 0%nat)
  /\ (let w' := run ex_getId [ClickDelete; Settle 0 (Fulfilled None)] ex_synced in
      WaveSurfer.get "wavesurfer_0" (WaveSurfer.rlist (ws w')) = None
      /\ selectedSegment (st w') = None)
  /\ (exists w1,
         handleSegmentDelete ex_fresh = (w1, Ret tt)
         /\ net w1 = net ex_fresh
         /\ WaveSurfer.get "wavesurfer_0" (WaveSurfer.rlist (ws w1)) = None
         /\ selectedSegment (st w1) = None).
Proof.
  pose proof (delete_selected_record ex_getId ex_synced 0
                {| WaveSurfer.id := "wavesurfer_0"; WaveSurfer.start := 0;
                   WaveSurfer.end_ := 3 # 2;
                   WaveSurfer.data := {| segmentation_id := Js.Num 7;
                                         transcription := Js.Str "hello";
                                         annotations := None |} |}
                eq_refl eq_refl eq_refl eq_refl) as [Hsynced _].
  pose proof (delete_selected_record ex_getId ex_fresh 0
                {| WaveSurfer.id := "wavesurfer_0"; WaveSurfer.start := 0;
                   WaveSurfer.end_ := 10; WaveSurfer.data := empty_data |}
                eq_refl eq_refl eq_refl eq_refl) as [_ Hfresh].
  destruct (Hsynced eq_refl) as (_ & Hrej & Hful).
  destruct (Hfresh eq_refl) as (w1 & Hrun & Hnet & _ & _ & Hgone & Hsel).
  split; [exact Hrej|]. split.
  - destruct (Hful None) as (_ & Hg & Hs). split; [exact Hg | exact Hs].
  - exists w1. split; [exact Hrun|]. split; [exact Hnet|]. split; [exact Hgone | exact Hsel].
Defined.

Lemma hydration_of_nonempty_list_witness :
  let d := ex_load [ex_segmentation 7 0 (3 # 2) "hello"; ex_segmentation 9 2 5 "world"] in
  let w1 := step ex_getId (SettleLoad (Some d)) ex_mounted in
  length (WaveSurfer.heap (ws w1)) = 2%nat
  /\ backendId w1 0 = Some (Js.Num 7)
  /\ backendId w1 1 = Some (Js.Num 9)
  /\ WaveSurfer.rlist (ws w1) = [("wavesurfer_0", 0%nat); ("wavesurfer_1", 1%nat)]
  /\ step ex_getId (Ready 10) w1 = w1.
Proof.
  intros d w1.
  assert (Hne : a_segmentations d <> []) by discriminate.
  destruct (hydration_of_nonempty_list ex_getId ex_mounted d 10 eq_refl Hne)
    as (Hlen & _ & Hid & Hl & _ & Hready).
  split; [exact Hlen|].
  split; [exact (Hid 0%nat _ eq_refl)|].
  split; [exact (Hid 1%nat _ eq_refl)|].
  split; [|exact Hready].
  apply Hl. apply (@bool_decide_unpack _ (NoDup_dec _)). vm_compute. exact I.
Defined.

Lemma hydration_of_empty_list_witness :
  WaveSurfer.heap (ws ex_fresh)
  = [ {| WaveSurfer.id := "wavesurfer_0"; WaveSurfer.start := 0;
         WaveSurfer.end_ := 10; WaveSurfer.data := empty_data |} ]
  /\ selectedSegment (st ex_fresh) = Some 0%nat
  /\ backendId ex_fresh 0 = Some Js.Undefined.
Proof.
  destruct (hydration_of_empty_list ex_getId ex_mounted (ex_load []) 10 eq_refl eq_refl)
    as (Hheap & _ & Hsel & Hid).
  split; [exact Hheap|]. split; [exact Hsel | exact Hid].
Defined.

Lemma multi_choice_stores_replacement_witness :
  exists w1 w2 r2,
    handleLabelChange "tags" {| e_value := "2"; e_selectedOptions := ["2"; "5"] |} ex_fresh
    = (w1, Ret tt)
    /\ handleLabelChange "tags" {| e_value := "5"; e_selectedOptions := ["5"] |} w1
       = (w2, Ret tt)
    /\ WaveSurfer.heap (ws w2) !! 0%nat = Some r2
    /\ annotation_of r2 "tags"
       = Some {| label_id := Js.Num 2; values := Multi ["5"] |}.
Proof.
  destruct (multi_choice_stores_replacement ex_fresh 0
              {| WaveSurfer.id := "wavesurfer_0"; WaveSurfer.start := 0;
                 WaveSurfer.end_ := 10; WaveSurfer.data := empty_data |}
              "tags"
              {| l_label_id := Js.Num 2; l_type := "multiselect";
                 l_values := [(Js.Num 2, "noise"); (Js.Num 5, "music")] |}
              {| e_value := "2"; e_selectedOptions := ["2"; "5"] |}
              {| e_value := "5"; e_selectedOptions := ["5"] |}
              eq_refl eq_refl eq_refl eq_refl)
    as (w1 & w2 & r2 & H1 & H2 & Hr2 & _ & Hann).
  exists w1, w2, r2.
  split; [exact H1|]. split; [exact H2|]. split; [exact Hr2 | exact Hann].
Defined.

(** C7, as the claim has it, fails: with nothing selected the handler
    of the transcription box does not return, it throws. *)
Lemma edit_without_selection_counterexample :
  selectedSegment (st ex_loaded) = None
  /\ handleTranscriptionChange "hello" ex_loaded = (ex_loaded, Throw Js.TypeError)
  /\ ~ (forall (w : World) (text : string),
          selectedSegment (st w) = None ->
          handleTranscriptionChange text w = (w, Ret tt)).
Proof.
  split; [reflexivity|]. split; [reflexivity|].
  intros H. specialize (H ex_loaded "hello" eq_refl).
  apply (f_equal snd) in H. vm_compute in H. discriminate H.
Qed.

Lemma edit_without_selection_throws_witness :
  handleTranscriptionChange "hello" ex_loaded = (ex_loaded, Throw Js.TypeError)
  /\ handleLabelChange "mood" {| e_value := "3"; e_selectedOptions := ["3"] |} ex_loaded
     = (ex_loaded, Throw Js.TypeError)
  /\ render_editControls (st ex_loaded) = false.
Proof.
  exact (edit_without_selection_throws ex_loaded "hello" "mood"
           {| e_value := "3"; e_selectedOptions := ["3"] |} eq_refl).
Defined.

Lemma save_rejected_keeps_edits_witness :
  (let w := fst (handleTranscriptionChange "hi" ex_fresh) in
   let w' := run ex_getId [ClickSave; Settle 0 Rejected] w in
   ws w' = ws w
   /\ backendId w' 0 = Some Js.Undefined
   /\ render_errorAlert (st w') = Some (Js.Str "Error saving segment"))
  /\ (let w := fst (handleTranscriptionChange "hi" ex_synced) in
      let w' := run ex_getId [ClickSave; Settle 0 Rejected] w in
      ws w' = ws w
      /\ backendId w' 0 = Some (Js.Num 7)
      /\ render_errorAlert (st w') = Some (Js.Str "Error saving segment")).
Proof.
  split.
  - intros w w'.
    destruct (save_rejected_keeps_edits ex_getId w 0
                {| WaveSurfer.id := "wavesurfer_0"; WaveSurfer.start := 0;
                   WaveSurfer.end_ := 10;
                   WaveSurfer.data := set_transcription (Js.Str "hi") empty_data |}
                eq_refl eq_refl)
      as (Hws & Hr & _ & _ & Herr & _).
    split; [exact Hws|]. split; [|exact Herr].
    exact (f_equal (fmap (fun r => segmentation_id (WaveSurfer.data r))) Hr).
  - intros w w'.
    destruct (save_rejected_keeps_edits ex_getId w 0
                {| WaveSurfer.id := "wavesurfer_0"; WaveSurfer.start := 0;
                   WaveSurfer.end_ := 3 # 2;
                   WaveSurfer.data := {| segmentation_id := Js.Num 7;
                                         transcription := Js.Str "hi";
                                         annotations := None |} |}
                eq_refl eq_refl)
      as (Hws & Hr & _ & _ & Herr & _).
    split; [exact Hws|]. split; [|exact Herr].
    exact (f_equal (fmap (fun r => segmentation_id (WaveSurfer.data r))) Hr).
Defined.


Lemma single_choice_stores_value_verbatim_witness :
  render_options {| l_label_id := Js.Num 1; l_type := "select";
                    l_values := [(Js.Num 3, "calm"); (Js.Num 4, "tense")] |}
  = Some ["-1"; "3"; "4"]
  /\ exists w1 r1,
       handleLabelChange "mood" {| e_value := "-1"; e_selectedOptions := ["-1"] |} ex_fresh
       = (w1, Ret tt)
       /\ WaveSurfer.heap (ws w1) !! 0%nat = Some r1
       /\ annotation_of r1 "mood"
          = Some {| label_id := Js.Num 1; values := Single "-1" |}.
Proof.
  destruct (single_choice_stores_value_verbatim ex_fresh 0
              {| WaveSurfer.id := "wavesurfer_0"; WaveSurfer.start := 0;
                 WaveSurfer.end_ := 10; WaveSurfer.data := empty_data |}
              "mood"
              {| l_label_id := Js.Num 1; l_type := "select";
                 l_values := [(Js.Num 3, "calm"); (Js.Num 4, "tense")] |}
              {| e_value := "-1"; e_selectedOptions := ["-1"] |}
              eq_refl eq_refl eq_refl ltac:(discriminate))
    as (Hopts & _ & w1 & r1 & H1 & Hr1 & _ & Hph).
  split; [exact (Hopts ltac:(discriminate))|].
  exists w1, r1. split; [exact H1|]. split; [exact Hr1 | exact (Hph eq_refl)].
Defined.

(** ** Beyond the claims: invariants, edge cases and round trips *)

(** *** Computations that keep a property of the world *)

Lemma inv_ret {A : Type} (P : World -> Prop) (x : A) : inv P (mret x).
Proof. intros w H. exact H. Qed.

Lemma inv_throw {A : Type} (P : World -> Prop) (e : Js.error) : inv P (@throw A e).
Proof. intros w H. exact H. Qed.

Lemma inv_bind {A B : Type} (P : World -> Prop) (c : M A) (k : A -> M B) :
  inv P c -> (forall x, inv P (k x)) -> inv P (c ≫= k).
Proof.
  intros Hc Hk w H. rewrite bind_run.
  specialize (Hc w H). destruct (c w) as [w' [x|e]]; simpl in Hc.
  - apply Hk, Hc.
  - exact Hc.
Qed.

Lemma inv_try_catch (P : World -> Prop) (c h : M unit) :
  inv P c -> inv P h -> inv P (try_catch c h).
Proof.
  intros Hc Hh w H. unfold try_catch.
  specialize (Hc w H). destruct (c w) as [w' [x|e]]; simpl in Hc.
  - exact Hc.
  - apply Hh, Hc.
Qed.

Lemma inv_if {A : Type} (P : World -> Prop) (b : bool) (c1 c2 : M A) :
  inv P c1 -> inv P c2 -> inv P (if b then c1 else c2).
Proof. destruct b; auto. Qed.

Lemma inv_notNull {A : Type} (P : World -> Prop) (o : option A) : inv P (notNull o).
Proof. destruct o; [apply inv_ret | apply inv_throw]. Qed.

Lemma inv_forEach {A : Type} (P : World -> Prop) (f : A -> M unit) (xs : list A) :
  (forall x, inv P (f x)) -> inv P (forEach f xs).
Proof.
  intros Hf. induction xs as [|x xs IH]; simpl.
  - apply inv_ret.
  - apply inv_bind; [apply Hf | intros _; exact IH].
Qed.

Lemma inv_region (P : World -> Prop) (a : nat) : inv P (region a).
Proof.
  intros w H. unfold region. destruct (WaveSurfer.heap (ws w) !! a); exact H.
Qed.

Lemma inv_listed (P : World -> Prop) (k : string) : inv P (listed k).
Proof.
  intros w H. unfold listed. destruct (WaveSurfer.get k _); exact H.
Qed.

Create HintDb inv.

#[local] Hint Resolve inv_ret inv_throw inv_notNull inv_if inv_region inv_listed : inv.
#[local] Hint Extern 1 (inv _ (setState _)) => intros ? ?; assumption : inv.
#[local] Hint Extern 1 (inv _ getState) => intros ? ?; assumption : inv.
#[local] Hint Extern 1 (inv _ (setText _)) => intros ? ?; assumption : inv.
#[local] Hint Extern 1 (inv _ (axios _ _)) => intros ? ?; assumption : inv.
#[local] Hint Extern 1 (inv _ (wavesurferLoad _)) => intros ? ?; assumption : inv.
#[local] Hint Extern 1 (inv _ (take _)) => intros ? ?; assumption : inv.
#[local] Hint Extern 1 (inv _ regionKeys) => intros ? ?; assumption : inv.
#[local] Hint Extern 1 (inv _ (listGet _)) => intros ? ?; assumption : inv.
#[local] Hint Extern 2 (inv _ (_ ≫= _)) => apply inv_bind; [|intros ?] : inv.
#[local] Hint Extern 2 (inv _ (try_catch _ _)) => apply inv_try_catch : inv.
#[local] Hint Extern 2 (inv _ (forEach _ _)) => apply inv_forEach; intros ? : inv.

(** *** The region list stays sound *)

Lemma get_put (k k' : string) (a : nat) (l : list (string * nat)) :
  WaveSurfer.get k' (WaveSurfer.put k a l)
  = if decide (k' = k) then Some a else WaveSurfer.get k' l.
Proof.
  induction l as [|[k0 a0] l IH]; simpl.
  - destruct (decide (k' = k)); reflexivity.
  - destruct (decide (k = k0)) as [<-|Hne]; simpl.
    + destruct (decide (k' = k)); reflexivity.
    + destruct (decide (k' = k0)) as [->|Hne'].
      * destruct (decide (k0 = k)); [congruence | reflexivity].
      * exact IH.
Qed.

Lemma get_del (k k' : string) (l : list (string * nat)) :
  WaveSurfer.get k' (WaveSurfer.del k l)
  = if decide (k' = k) then None else WaveSurfer.get k' l.
Proof.
  destruct (decide (k' = k)) as [->|Hne].
  - apply get_del_eq.
  - apply get_del_ne. congruence.
Qed.

Lemma keys_put_known (k : string) (a : nat) (l : list (string * nat)) :
  k ∈ WaveSurfer.keys l -> WaveSurfer.keys (WaveSurfer.put k a l) = WaveSurfer.keys l.
Proof.
  induction l as [|[k0 a0] l IH]; simpl; intros Hk.
  - inversion Hk.
  - destruct (decide (k = k0)) as [->|Hne]; simpl; [reflexivity|].
    apply elem_of_cons in Hk as [E|Hk]; [contradiction|].
    rewrite (IH Hk). reflexivity.
Qed.

Lemma NoDup_keys_put (k : string) (a : nat) (l : list (string * nat)) :
  NoDup (WaveSurfer.keys l) -> NoDup (WaveSurfer.keys (WaveSurfer.put k a l)).
Proof.
  intros Hnd. destruct (decide (k ∈ WaveSurfer.keys l)) as [Hin|Hout].
  - rewrite keys_put_known by exact Hin. exact Hnd.
  - rewrite put_fresh by exact Hout. unfold WaveSurfer.keys in *.
    rewrite map_app. simpl. apply NoDup_app. split; [exact Hnd|].
    split; [|apply NoDup_singleton].
    intros x Hx Hx'. apply list_elem_of_singleton in Hx'. subst x. contradiction.
Qed.

Lemma keys_del_subset (k x : string) (l : list (string * nat)) :
  x ∈ WaveSurfer.keys (WaveSurfer.del k l) -> x ∈ WaveSurfer.keys l.
Proof.
  induction l as [|[k0 a0] l IH]; simpl; intros Hx; [exact Hx|].
  destruct (decide (k = k0)).
  - right. apply IH, Hx.
  - simpl in Hx. apply elem_of_cons in Hx as [->|Hx]; [left | right; apply IH, Hx].
Qed.

Lemma NoDup_keys_del (k : string) (l : list (string * nat)) :
  NoDup (WaveSurfer.keys l) -> NoDup (WaveSurfer.keys (WaveSurfer.del k l)).
Proof.
  induction l as [|[k0 a0] l IH]; simpl; intros Hnd; [exact Hnd|].
  apply NoDup_cons in Hnd as [Hk0 Hnd].
  destruct (decide (k = k0)); [apply IH, Hnd|].
  simpl. apply NoDup_cons. split; [|apply IH, Hnd].
  intros Hin. apply Hk0. eapply keys_del_subset, Hin.
Qed.

Lemma list_ok_add (getId : nat -> string) (p : WaveSurfer.Params) (v : WaveSurfer.t) :
  list_ok v -> list_ok (snd (WaveSurfer.add getId p v)).
Proof.
  intros [Hnd Hget]. split; simpl.
  - apply NoDup_keys_put, Hnd.
  - intros k a. rewrite get_put.
    destruct (decide (k = getId (WaveSurfer.draws v))) as [->|Hne].
    + intros [= <-]. eexists. split.
      * rewrite list_lookup_middle by reflexivity. reflexivity.
      * reflexivity.
    + intros H. destruct (Hget k a H) as (r & Hr & Hid).
      exists r. split; [|exact Hid].
      rewrite lookup_app_l by (eapply lookup_lt_Some; exact Hr). exact Hr.
Qed.

Lemma list_ok_remove (a : nat) (v : WaveSurfer.t) :
  list_ok v -> list_ok (WaveSurfer.remove a v).
Proof.
  intros [Hnd Hget]. unfold WaveSurfer.remove.
  destruct (WaveSurfer.heap v !! a) as [r|]; [|split; assumption].
  split; simpl.
  - apply NoDup_keys_del, Hnd.
  - intros k a'. rewrite get_del.
    destruct (decide (k = WaveSurfer.id r)); [discriminate | apply Hget].
Qed.

Lemma list_ok_update (a : nat) (f : WaveSurfer.Region -> WaveSurfer.Region)
    (v : WaveSurfer.t) :
  (forall r, WaveSurfer.id (f r) = WaveSurfer.id r) ->
  list_ok v -> list_ok (WaveSurfer.update a f v).
Proof.
  intros Hf [Hnd Hget]. unfold WaveSurfer.update.
  destruct (WaveSurfer.heap v !! a) as [r|] eqn:Hr; [|split; assumption].
  split; simpl; [exact Hnd|].
  intros k a' H. destruct (Hget k a' H) as (r' & Hr' & Hid).
  destruct (decide (a = a')) as [<-|Hne].
  - exists (f r). rewrite list_lookup_insert_eq by (eapply lookup_lt_Some; exact Hr).
    split; [reflexivity|]. rewrite Hf. congruence.
  - exists r'. rewrite list_lookup_insert_ne by exact Hne. split; assumption.
Qed.

Lemma sound_writeData (a : nat) (f : SegData -> SegData) :
  inv list_sound (writeData a f).
Proof.
  intros w H. unfold list_sound, writeData in *. simpl.
  apply list_ok_update; [reflexivity | exact H].
Qed.

Lemma sound_regionRemove (a : nat) : inv list_sound (regionRemove a).
Proof.
  intros w H. unfold list_sound, regionRemove in *. simpl.
  apply list_ok_remove, H.
Qed.

Lemma sound_addRegion (getId : nat -> string) (p : WaveSurfer.Params) :
  inv list_sound (addRegion getId p).
Proof.
  intros w H. unfold list_sound, addRegion in *. simpl.
  apply (list_ok_add getId p), H.
Qed.

#[local] Hint Resolve sound_writeData sound_regionRemove sound_addRegion : inv.
#[local] Hint Extern 3 (inv _ (writeData _ _)) => intros ? ?; assumption : inv.
#[local] Hint Extern 3 (inv _ (regionRemove _)) => intros ? ?; assumption : inv.
#[local] Hint Extern 3 (inv _ (addRegion _ _)) => intros ? ?; assumption : inv.

Lemma sound_settle (p : Pending) (r : Response) : inv list_sound (settle p r).
Proof.
  destruct p as [v a| a| |], r as [d|]; simpl;
    unfold delete_then, delete_catch, removeSelected, create_then, save_catch,
           update_then, review_then, review_catch;
    auto 30 with inv.
Qed.

Lemma sound_handler (getId : nat -> string) (ev : Event) :
  inv list_sound (handler getId ev).
Proof.
  destruct ev as [d|r| |r|s e|r s e| | | |c| | |t|k e| |i r|[d|]]; simpl handler;
    try (unfold onReady, showSegmentTranscription, onRegionClick, onRegionDrawn,
                handlePlay, handlePause, handleIsMarkedForReview,
                handleSegmentDelete, removeSelected, handleSegmentSave,
                handleTranscriptionChange, handleLabelChange, handleAlertDismiss,
                load_then, loadRegions, load_catch;
         auto 40 with inv; fail).
  - intros w H. unfold list_sound, onRegionResized in *. simpl.
    apply list_ok_update; [reflexivity | exact H].
  - apply inv_bind; [auto with inv|]. intros [p|]; [apply sound_settle | apply inv_ret].
Qed.

Lemma run_sound (getId : nat -> string) (evs : list Event) (w : World) :
  list_sound w -> list_sound (run getId evs w).
Proof.
  revert w. induction evs as [|ev evs IH]; intros w H; simpl; [exact H|].
  apply IH. apply (sound_handler getId ev w H).
Qed.

Lemma empty_sound (w : World) : ws w = WaveSurfer.empty -> list_sound w.
Proof.
  intros E. unfold list_sound. rewrite E. split; simpl.
  - apply NoDup_nil_2.
  - intros k a H. discriminate H.
Qed.

(** X1. Whatever events arrive after the constructor, the region list
    has no key twice and every key is the id of the region stored
    under it. *)
Theorem region_list_always_sound (getId : nat -> string) (projectId dataId : Z)
    (evs : list Event) :
  list_ok (ws (run getId evs (initial projectId dataId))).
Proof. apply run_sound, empty_sound. reflexivity. Qed.

(** *** The exact effect of the two editing handlers *)

Lemma handleTranscriptionChange_world (w : World) (a : nat) (r : WaveSurfer.Region)
    (value : string) :
  selectedSegment (st w) = Some a ->
  WaveSurfer.heap (ws w) !! a = Some r ->
  handleTranscriptionChange value w
  = (with_st (merge (patch_selected (Some a)) (st w))
       (with_ws {| WaveSurfer.heap :=
                     <[a := WaveSurfer.set_data
                              (set_transcription (Js.Str value) (WaveSurfer.data r)) r]>
                       (WaveSurfer.heap (ws w));
                   WaveSurfer.rlist := WaveSurfer.rlist (ws w);
                   WaveSurfer.draws := WaveSurfer.draws (ws w) |} w),
     Ret tt).
Proof.
  intros Hsel Hr. unfold handleTranscriptionChange.
  rewrite bind_run. unfold getState at 1.
  rewrite bind_run, Hsel. simpl notNull. unfold mret at 1, M_ret at 1.
  rewrite bind_run. unfold writeData at 1, WaveSurfer.update. rewrite Hr.
  reflexivity.
Qed.

Lemma handleLabelChange_world (w : World) (a : nat) (r : WaveSurfer.Region)
    (key : string) (l : LabelDef) (e : SelectEvent) :
  selectedSegment (st w) = Some a ->
  WaveSurfer.heap (ws w) !! a = Some r ->
  labels (st w) !! key = Some l ->
  handleLabelChange key e w
  = (with_st (merge (patch_selected (Some a)) (st w))
       (with_ws {| WaveSurfer.heap :=
                     <[a := WaveSurfer.set_data
                              (set_annotations
                                 (Some (<[key := entry_for l e]>
                                          (default ∅ (annotations (WaveSurfer.data r)))))
                                 (WaveSurfer.data r)) r]>
                       (WaveSurfer.heap (ws w));
                   WaveSurfer.rlist := WaveSurfer.rlist (ws w);
                   WaveSurfer.draws := WaveSurfer.draws (ws w) |} w),
     Ret tt).
Proof.
  intros Hsel Hr Hl.
  rewrite (handleLabelChange_member w a r key (OwnLabel l) e Hsel Hr)
    by (apply labels_get_own, Hl).
  rewrite member_entry_own. reflexivity.
Qed.


(** X6. An edit writes one field of the selected record: a label change
    leaves its transcription, identifier, times, id and the entries of
    all other labels as they were, a transcription change leaves its
    annotations and the rest as they were, and neither touches another
    region object, the region list or the network. *)
Theorem edits_touch_one_field (w : World) (a : nat) (r : WaveSurfer.Region)
    (key : string) (l : LabelDef) (e : SelectEvent) (value : string) :
  selectedSegment (st w) = Some a ->
  WaveSurfer.heap (ws w) !! a = Some r ->
  labels (st w) !! key = Some l ->
  let wl := fst (handleLabelChange key e w) in
  let wt := fst (handleTranscriptionChange value w) in
  (exists rl,
      WaveSurfer.heap (ws wl) !! a = Some rl
      /\ transcription (WaveSurfer.data rl) = transcription (WaveSurfer.data r)
      /\ segmentation_id (WaveSurfer.data rl) = segmentation_id (WaveSurfer.data r)
      /\ WaveSurfer.id rl = WaveSurfer.id r
      /\ WaveSurfer.start rl = WaveSurfer.start r
      /\ WaveSurfer.end_ rl = WaveSurfer.end_ r
      /\ forall k, k <> key -> annotation_of rl k = annotation_of r k)
  /\ (exists rt,
         WaveSurfer.heap (ws wt) !! a = Some rt
         /\ transcription (WaveSurfer.data rt) = Js.Str value
         /\ annotations (WaveSurfer.data rt) = annotations (WaveSurfer.data r)
         /\ segmentation_id (WaveSurfer.data rt) = segmentation_id (WaveSurfer.data r)
         /\ WaveSurfer.id rt = WaveSurfer.id r
         /\ WaveSurfer.start rt = WaveSurfer.start r
         /\ WaveSurfer.end_ rt = WaveSurfer.end_ r)
  /\ (forall a', a' <> a ->
        WaveSurfer.heap (ws wl) !! a' = WaveSurfer.heap (ws w) !! a'
        /\ WaveSurfer.heap (ws wt) !! a' = WaveSurfer.heap (ws w) !! a')
  /\ WaveSurfer.rlist (ws wl) = WaveSurfer.rlist (ws w)
  /\ WaveSurfer.rlist (ws wt) = WaveSurfer.rlist (ws w)
  /\ net wl = net w /\ net wt = net w
  /\ selectedSegment (st wl) = Some a /\ selectedSegment (st wt) = Some a.
Proof.
  intros Hsel Hr Hl wl wt. subst wl wt.
  assert (Hlt : (a < length (WaveSurfer.heap (ws w)))%nat)
    by (eapply lookup_lt_Some; exact Hr).
  rewrite (handleLabelChange_world w a r key l e Hsel Hr Hl).
  rewrite (handleTranscriptionChange_world w a r value Hsel Hr).
  cbn [fst]. simpl.
  split; [|split; [|split]].
  - eexists. rewrite list_lookup_insert_eq by exact Hlt.
    split; [reflexivity|]. simpl. repeat split.
    intros k Hk. unfold annotation_of. simpl.
    rewrite lookup_insert_ne by congruence.
    destruct (annotations (WaveSurfer.data r)); [reflexivity | apply lookup_empty].
  - eexists. rewrite list_lookup_insert_eq by exact Hlt.
    split; [reflexivity|]. simpl. repeat split.
  - intros a' Hne. rewrite !list_lookup_insert_ne by congruence. split; reflexivity.
  - repeat split.
Qed.

(** X7. What was entered is what the controls show: after a
    transcription change the text box holds the text typed, and after a
    label change the control of that label holds the chosen list (a
    multi-choice label) or the chosen value (any other label), the
    empty selection and the empty value included. *)
Theorem edits_show_in_controls (w : World) (a : nat) (r : WaveSurfer.Region)
    (key : string) (l : LabelDef) (e : SelectEvent) (value : string) :
  selectedSegment (st w) = Some a ->
  WaveSurfer.heap (ws w) !! a = Some r ->
  labels (st w) !! key = Some l ->
  render_transcription (fst (handleTranscriptionChange value w)) = Js.Str value
  /\ (l_type l = "multiselect" ->
      render_select_value (fst (handleLabelChange key e w)) key l
      = Multi (e_selectedOptions e))
  /\ (l_type l <> "multiselect" ->
      render_select_value (fst (handleLabelChange key e w)) key l
      = Single (e_value e)).
Proof.
  intros Hsel Hr Hl.
  assert (Hlt : (a < length (WaveSurfer.heap (ws w)))%nat)
    by (eapply lookup_lt_Some; exact Hr).
  rewrite (handleLabelChange_world w a r key l e Hsel Hr Hl).
  rewrite (handleTranscriptionChange_world w a r value Hsel Hr).
  cbn [fst]. unfold render_transcription, render_select_value. simpl.
  rewrite !list_lookup_insert_eq by exact Hlt.
  unfold annotation_of. simpl. rewrite lookup_insert_eq. unfold entry_for.
  split; [|split].
  - unfold Js.or. simpl. destruct (String.eqb_spec value ""); [subst|]; reflexivity.
  - intros Hty. rewrite !decide_True by exact Hty. reflexivity.
  - intros Hty. rewrite !decide_False by exact Hty. simpl.
    destruct (String.eqb_spec (e_value e) "") as [->|]; reflexivity.
Qed.

Section Composition.

Variable getId : nat -> string.

(** The world once a delete of the selected record has gone through. *)
Lemma delete_done (w : World) (a : nat) (r : WaveSurfer.Region) (d : option ResponseData) :
  selectedSegment (st w) = Some a ->
  WaveSurfer.heap (ws w) !! a = Some r ->
  wavesurfer (st w) = true ->
  WaveSurfer.get (WaveSurfer.id r) (WaveSurfer.rlist (ws w)) = Some a ->
  let w' :=
    if Js.truthy (segmentation_id (WaveSurfer.data r)) then
      run getId [ClickDelete; Settle (length (inflight w)) (Fulfilled d)] w
    else step getId ClickDelete w in
  ws w' = {| WaveSurfer.heap := WaveSurfer.heap (ws w);
             WaveSurfer.rlist := WaveSurfer.del (WaveSurfer.id r) (WaveSurfer.rlist (ws w));
             WaveSurfer.draws := WaveSurfer.draws (ws w) |}
  /\ st w' = merge patch_deleted (merge (patch_deleting true) (st w)).
Proof.
  intros Hsel Hr Hws Hl w'. subst w'.
  pose proof (handleSegmentDelete_selected w a r Hsel Hr) as Hdel.
  cbv zeta in Hdel. rewrite Hws in Hdel.
  assert (Hstep : step getId ClickDelete w = fst (handleSegmentDelete w)) by reflexivity.
  destruct (Js.truthy (segmentation_id (WaveSurfer.data r))).
  - unfold run. simpl fold_left. rewrite Hstep, Hdel. cbn [fst].
    rewrite (step_settle_last _ _ (inflight w) (PDelete true a)) by reflexivity.
    cbn [settle]. unfold try_catch, delete_then. rewrite bind_run.
    erewrite removeSelected_listed; [|exact Hr|exact Hl].
    split; reflexivity.
  - rewrite Hstep, Hdel. rewrite bind_run.
    erewrite removeSelected_listed; [|exact Hr|exact Hl].
    split; reflexivity.
Qed.

(** X2. Once the delete of the selected record has gone through (at
    once for a record without identifier, after the fulfilled DELETE for
    one with), and the region list was sound, the record is under no key
    of the list, every other entry is as before, no region object has
    changed, the selection is cleared and the edit controls are gone. *)
Theorem delete_removes_only_that_record (w : World) (a : nat) (r : WaveSurfer.Region)
    (d : option ResponseData) :
  list_ok (ws w) ->
  selectedSegment (st w) = Some a ->
  WaveSurfer.heap (ws w) !! a = Some r ->
  wavesurfer (st w) = true ->
  WaveSurfer.get (WaveSurfer.id r) (WaveSurfer.rlist (ws w)) = Some a ->
  let w' :=
    if Js.truthy (segmentation_id (WaveSurfer.data r)) then
      run getId [ClickDelete; Settle (length (inflight w)) (Fulfilled d)] w
    else step getId ClickDelete w in
  (forall k, WaveSurfer.get k (WaveSurfer.rlist (ws w')) <> Some a)
  /\ (forall k, k <> WaveSurfer.id r ->
        WaveSurfer.get k (WaveSurfer.rlist (ws w'))
        = WaveSurfer.get k (WaveSurfer.rlist (ws w)))
  /\ WaveSurfer.heap (ws w') = WaveSurfer.heap (ws w)
  /\ selectedSegment (st w') = None
  /\ render_editControls (st w') = false
  /\ isSegmentDeleting (st w') = false
  /\ list_ok (ws w').
Proof.
  intros Hok Hsel Hr Hws Hl w'.
  destruct (delete_done w a r d Hsel Hr Hws Hl) as [Ews Est].
  fold w' in Ews, Est. rewrite Ews, Est. simpl.
  split; [|split; [|split; [|split; [|split; [|split]]]]]; try reflexivity.
  - intros k. rewrite get_del.
    destruct (decide (k = WaveSurfer.id r)) as [->|Hne]; [discriminate|].
    intros Hk. destruct Hok as [_ Hget].
    destruct (Hget k a Hk) as (r' & Hr' & Hid). congruence.
  - intros k Hne. rewrite get_del. rewrite decide_False by exact Hne. reflexivity.
  - unfold render_editControls. simpl. apply andb_false_r.
  - destruct Hok as [Hnd Hget]. split; simpl.
    + apply NoDup_keys_del, Hnd.
    + intros k a'. rewrite get_del.
      destruct (decide (k = WaveSurfer.id r)); [discriminate | apply Hget].
Qed.


(** X4. A create that is fulfilled after its record was deleted locally
    still writes the identifier into the region object and makes it the
    selection again, although it is no longer in the region list; a
    delete of it then sends the DELETE, but the continuation of a
    fulfilled DELETE throws on the missing list entry and its [catch]
    only resets the flag, so that the record stays selected. *)
Theorem create_after_local_delete_reselects (w : World) (a : nat)
    (r : WaveSurfer.Region) (d : ResponseData) (d2 : option ResponseData) :
  selectedSegment (st w) = Some a ->
  WaveSurfer.heap (ws w) !! a = Some r ->
  no_backend_id (segmentation_id (WaveSurfer.data r)) = true ->
  wavesurfer (st w) = true ->
  WaveSurfer.get (WaveSurfer.id r) (WaveSurfer.rlist (ws w)) = Some a ->
  Js.truthy (r_segmentation_id d) = true ->
  let w' := run getId [ClickSave; ClickDelete;
                       Settle (length (inflight w)) (Fulfilled (Some d))] w in
  let w'' := run getId [ClickDelete; Settle (length (inflight w)) (Fulfilled d2)] w' in
  selectedSegment (st w') = Some a
  /\ WaveSurfer.get (WaveSurfer.id r) (WaveSurfer.rlist (ws w')) = None
  /\ backendId w' a = Some (r_segmentation_id d)
  /\ inflight w' = inflight w
  /\ selectedSegment (st w'') = Some a
  /\ isSegmentDeleting (st w'') = false
  /\ ws w'' = ws w'
  /\ exists req, net w'' = net w' ++ [req] /\ method req = DELETE.
Proof.
  intros Hsel Hr Hid Hws Hl Htr w'.
  assert (Hlt : (a < length (WaveSurfer.heap (ws w)))%nat)
    by (eapply lookup_lt_Some; exact Hr).
  (* the save *)
  assert (E1 : step getId ClickSave w
               = with_net (net w ++ [ {| method := POST; url := segmentationUrl (st w);
                                         body := payload_of r |} ])
                          (inflight w ++ [PCreate a])
                          (with_st (merge (patch_isSaving true) (st w)) w)).
  { change (step getId ClickSave w) with (fst (handleSegmentSave w)).
    rewrite (handleSegmentSave_selected w a r Hsel Hr). cbv zeta.
    rewrite (no_backend_id_null _ Hid). reflexivity. }
  (* the local delete *)
  set (w1 := step getId ClickSave w) in *.
  assert (E2 : step getId ClickDelete w1
               = with_st (merge patch_deleted (merge (patch_deleting true) (st w1)))
                   (with_ws {| WaveSurfer.heap := WaveSurfer.heap (ws w);
                               WaveSurfer.rlist :=
                                 WaveSurfer.del (WaveSurfer.id r) (WaveSurfer.rlist (ws w));
                               WaveSurfer.draws := WaveSurfer.draws (ws w) |} w1)).
  { change (step getId ClickDelete w1) with (fst (handleSegmentDelete w1)).
    rewrite (handleSegmentDelete_selected w1 a r);
      [|rewrite E1; exact Hsel | rewrite E1; exact Hr].
    cbv zeta. rewrite (no_backend_id_falsy _ Hid). rewrite bind_run.
    assert (Hw1 : wavesurfer (st w1) = true) by (rewrite E1; exact Hws).
    rewrite Hw1.
    erewrite removeSelected_listed;
      [|rewrite E1; exact Hr | rewrite E1; exact Hl].
    rewrite E1. reflexivity. }
  set (w2 := step getId ClickDelete w1) in *.
  (* the create is fulfilled *)
  assert (E3 : w' = fst (settle (PCreate a) (Fulfilled (Some d))
                           (with_net (net w2) (inflight w) w2))).
  { subst w'. unfold run. simpl fold_left. fold w1. fold w2.
    apply step_settle_last. rewrite E2, E1. reflexivity. }
  assert (Hsel' : selectedSegment (st w') = Some a) by (rewrite E3; reflexivity).
  assert (Hheap' : WaveSurfer.heap (ws w') !! a
                   = Some (WaveSurfer.set_data
                             (set_segmentation_id (r_segmentation_id d) (WaveSurfer.data r))
                             r)).
  { rewrite E3, E2. simpl. unfold WaveSurfer.update. simpl. rewrite Hr. simpl.
    apply list_lookup_insert_eq, Hlt. }
  assert (Hlist' : WaveSurfer.rlist (ws w')
                   = WaveSurfer.del (WaveSurfer.id r) (WaveSurfer.rlist (ws w))).
  { rewrite E3, E2. simpl. unfold WaveSurfer.update. simpl. rewrite Hr. reflexivity. }
  assert (Hin' : inflight w' = inflight w) by (rewrite E3; reflexivity).
  assert (Hws' : wavesurfer (st w') = true).
  { rewrite E3, E2, E1. simpl. exact Hws. }
  intros w''.
  split; [exact Hsel'|].
  split; [rewrite Hlist'; apply get_del_eq|].
  split; [unfold backendId; rewrite Hheap'; reflexivity|].
  split; [exact Hin'|].
  (* the second delete *)
  assert (E4 : step getId ClickDelete w'
               = with_net (net w' ++ [ {| method := DELETE;
                                          url := segmentationUrl (st w') +:+ "/"
                                                 +:+ Js.to_string (r_segmentation_id d);
                                          body := NoBody |} ])
                          (inflight w' ++ [PDelete true a])
                          (with_st (merge (patch_deleting true) (st w')) w')).
  { change (step getId ClickDelete w') with (fst (handleSegmentDelete w')).
    rewrite (handleSegmentDelete_selected w' a _ Hsel' Hheap'). cbv zeta.
    simpl segmentation_id. rewrite Htr, Hws'. reflexivity. }
  assert (E5 : w'' = fst (settle (PDelete true a) (Fulfilled d2)
                            (with_net (net (step getId ClickDelete w')) (inflight w')
                                      (step getId ClickDelete w')))).
  { subst w''. unfold run. simpl fold_left. rewrite <- Hin'.
    apply step_settle_last. rewrite E4. reflexivity. }
  assert (E6 : settle (PDelete true a) (Fulfilled d2)
                 (with_net (net (step getId ClickDelete w')) (inflight w')
                           (step getId ClickDelete w'))
               = delete_catch (with_net (net (step getId ClickDelete w')) (inflight w')
                                        (step getId ClickDelete w'))).
  { cbn [settle]. unfold try_catch, delete_then, removeSelected.
    rewrite bind_run, bind_run. unfold mret at 1, M_ret at 1.
    rewrite bind_run. unfold region at 1. rewrite E4. simpl ws.
    rewrite Hheap'. simpl notNull. unfold mret at 1, M_ret at 1.
    rewrite bind_run. unfold listed at 1. simpl ws. simpl WaveSurfer.id.
    rewrite Hlist', get_del_eq. reflexivity. }
  rewrite E6 in E5. rewrite E5, E4. simpl.
  split; [exact Hsel'|]. split; [reflexivity|]. split; [reflexivity|].
  eexists. split; reflexivity.
Qed.

End Composition.

(** *** What the continuations and the other events do not do *)

(** X3. A fulfilled request whose [then] throws ends like a rejected
    one, since the [catch] is chained after the [then]: a create or a
    review toggle fulfilled with a [null] body, and a delete fulfilled
    for a record that the region list no longer holds, leave exactly the
    world that a rejection leaves. *)
Theorem failing_then_ends_as_rejection :
  (forall (a : nat) (w : World),
      settle (PCreate a) (Fulfilled None) w = settle (PCreate a) Rejected w)
  /\ (forall w : World,
        settle PReview (Fulfilled None) w = settle PReview Rejected w)
  /\ (forall (v : bool) (a : nat) (d : option ResponseData) (w : World)
             (r : WaveSurfer.Region),
        WaveSurfer.heap (ws w) !! a = Some r ->
        WaveSurfer.get (WaveSurfer.id r) (WaveSurfer.rlist (ws w)) = None ->
        settle (PDelete v a) (Fulfilled d) w = settle (PDelete v a) Rejected w).
Proof.
  split; [reflexivity|]. split; [reflexivity|].
  intros v a d w r Hr Hl. cbn [settle].
  unfold try_catch, delete_then, removeSelected.
  rewrite bind_run, bind_run. destruct v; [|reflexivity].
  unfold mret at 1, M_ret at 1.
  rewrite bind_run. unfold region at 1. rewrite Hr. simpl notNull.
  unfold mret at 1, M_ret at 1.
  rewrite bind_run. unfold listed at 1. rewrite Hl. reflexivity.
Qed.

(** X9. The outcome of a save or of a review toggle shows exactly one
    alert, the success one when the request was fulfilled with a body
    and the error one otherwise, whatever was shown before; the outcome
    of a delete, fulfilled or rejected, changes neither message. *)
Theorem outcome_alerts (p : Pending) (r : Response) (w : World) :
  let w' := fst (settle p r w) in
  match p with
  | PDelete _ _ =>
      errorMessage (st w') = errorMessage (st w)
      /\ successMessage (st w') = successMessage (st w)
  | PCreate _ | PReview =>
      match r with
      | Fulfilled (Some _) =>
          render_errorAlert (st w') = None /\ is_Some (render_successAlert (st w'))
      | _ =>
          is_Some (render_errorAlert (st w')) /\ render_successAlert (st w') = None
      end
  | PUpdate =>
      match r with
      | Fulfilled _ =>
          render_errorAlert (st w') = None
          /\ render_successAlert (st w') = Some (Js.Str "Segment saved")
      | Rejected =>
          render_errorAlert (st w') = Some (Js.Str "Error saving segment")
          /\ render_successAlert (st w') = None
      end
  end.
Proof.
  destruct p as [v a|a| |].
  - assert (Hinv : inv (fun w' => errorMessage (st w') = errorMessage (st w)
                                  /\ successMessage (st w') = successMessage (st w))
                       (settle (PDelete v a) r)).
    { destruct r as [d|]; cbn [settle];
        unfold delete_then, delete_catch, removeSelected; auto 30 with inv. }
    apply Hinv. split; reflexivity.
  - destruct r as [[d|]|]; (split; [try reflexivity; eexists; reflexivity
                                   | try reflexivity; eexists; reflexivity]).
  - destruct r as [d|]; split; reflexivity.
  - destruct r as [[d|]|]; (split; [try reflexivity; eexists; reflexivity
                                   | try reflexivity; eexists; reflexivity]).
Qed.

(** X10. The two handlers do not test for an identifier in the same
    way: for a [segmentation_id] that is falsy without being [null] or
    [undefined] (the number 0, the empty string, [false]), save sends a
    PUT to [segmentationUrl/identifier] while delete sends nothing and
    removes the record from the list at once. *)
Theorem falsy_id_updates_but_deletes_locally (w : World) (a : nat)
    (r : WaveSurfer.Region) :
  selectedSegment (st w) = Some a ->
  WaveSurfer.heap (ws w) !! a = Some r ->
  wavesurfer (st w) = true ->
  WaveSurfer.get (WaveSurfer.id r) (WaveSurfer.rlist (ws w)) = Some a ->
  Js.truthy (segmentation_id (WaveSurfer.data r)) = false ->
  no_backend_id (segmentation_id (WaveSurfer.data r)) = false ->
  (exists w1,
      handleSegmentSave w = (w1, Ret tt)
      /\ net w1 = net w ++
           [ {| method := PUT;
                url := segmentationUrl (st w) +:+ "/"
                       +:+ Js.to_string (segmentation_id (WaveSurfer.data r));
                body := payload_of r |} ])
  /\ (exists w2,
         handleSegmentDelete w = (w2, Ret tt)
         /\ net w2 = net w
         /\ WaveSurfer.get (WaveSurfer.id r) (WaveSurfer.rlist (ws w2)) = None
         /\ selectedSegment (st w2) = None).
Proof.
  intros Hsel Hr Hws Hl Hf Hn. split.
  - pose proof (handleSegmentSave_selected w a r Hsel Hr) as Hsave.
    cbv zeta in Hsave.
    destruct (segmentation_id (WaveSurfer.data r)) eqn:E; try discriminate Hn;
      simpl in Hsave; eexists; (split; [exact Hsave | reflexivity]).
  - pose proof (handleSegmentDelete_selected w a r Hsel Hr) as Hdel.
    cbv zeta in Hdel. rewrite Hf, Hws, bind_run in Hdel.
    erewrite removeSelected_listed in Hdel; [|exact Hr|exact Hl].
    eexists. split; [exact Hdel|]. simpl.
    split; [reflexivity|]. split; [apply get_del_eq | reflexivity].
Qed.

Section Events.

Variable getId : nat -> string.

(** X11. Playback is display only: over any run of playback events
    (the position entering or leaving regions, pause, the play and pause
    buttons) the selection, the region objects, the region list, the
    messages and the network stay as they are; a region entered is not
    selected. *)
Theorem playback_changes_no_data (evs : list Event) (w : World) :
  forallb is_playback evs = true ->
  let w' := run getId evs w in
  selectedSegment (st w') = selectedSegment (st w)
  /\ ws w' = ws w
  /\ net w' = net w
  /\ inflight w' = inflight w
  /\ errorMessage (st w') = errorMessage (st w)
  /\ successMessage (st w') = successMessage (st w).
Proof.
  revert w. induction evs as [|ev evs IH]; intros w Hall; simpl in *.
  - repeat split.
  - apply andb_prop in Hall as [Hev Hall].
    specialize (IH (step getId ev w) Hall). simpl in IH.
    assert (Hstep : selectedSegment (st (step getId ev w)) = selectedSegment (st w)
                    /\ ws (step getId ev w) = ws w
                    /\ net (step getId ev w) = net w
                    /\ inflight (step getId ev w) = inflight w
                    /\ errorMessage (st (step getId ev w)) = errorMessage (st w)
                    /\ successMessage (st (step getId ev w)) = successMessage (st w)).
    { assert (Hinv : inv (fun w' =>
                selectedSegment (st w') = selectedSegment (st w)
                /\ ws w' = ws w
                /\ net w' = net w
                /\ inflight w' = inflight w
                /\ errorMessage (st w') = errorMessage (st w)
                /\ successMessage (st w') = successMessage (st w))
              (handler getId ev)).
      { destruct ev; try discriminate Hev; simpl handler;
          unfold showSegmentTranscription, handlePlay, handlePause;
          auto 20 with inv. }
      apply Hinv. repeat split. }
    destruct IH as (I1 & I2 & I3 & I4 & I5 & I6).
    destruct Hstep as (S1 & S2 & S3 & S4 & S5 & S6).
    repeat split; congruence.
Qed.

End Events.

Section Requests.

Variable getId : nat -> string.

Lemma handleSegmentSave_throws (w : World) :
  selectedSegment (st w) = None
  \/ (exists a, selectedSegment (st w) = Some a /\ WaveSurfer.heap (ws w) !! a = None) ->
  handleSegmentSave w = (w, Throw Js.TypeError).
Proof.
  intros [Hsel | (a & Hsel & Hr)]; unfold handleSegmentSave;
    rewrite bind_run; unfold getState at 1; rewrite bind_run, Hsel.
  - reflexivity.
  - simpl notNull. unfold mret at 1, M_ret at 1.
    rewrite bind_run. unfold region at 1. rewrite Hr. reflexivity.
Qed.

Lemma handleSegmentDelete_quiet (w : World) :
  net (fst (handleSegmentDelete w)) = net w
  \/ exists req, net (fst (handleSegmentDelete w)) = net w ++ [req]
                 /\ method req = DELETE.
Proof.
  destruct (selectedSegment (st w)) as [a|] eqn:Hsel.
  - destruct (WaveSurfer.heap (ws w) !! a) as [r|] eqn:Hr.
    + rewrite (handleSegmentDelete_selected w a r Hsel Hr). cbv zeta.
      destruct (Js.truthy _).
      * right. eexists. split; reflexivity.
      * left.
        assert (Hinv : inv (fun w' => net w' = net w)
                           (removeSelected (wavesurfer (st w)) a
                            ≫= fun _ => setState patch_deleted)).
        { unfold removeSelected. auto 30 with inv. }
        apply Hinv. reflexivity.
    + left. unfold handleSegmentDelete.
      rewrite bind_run. unfold getState at 1.
      rewrite bind_run. unfold setState at 1.
      rewrite bind_run, Hsel. simpl notNull. unfold mret at 1, M_ret at 1.
      rewrite bind_run. unfold region at 1. simpl ws. rewrite Hr. reflexivity.
  - left. unfold handleSegmentDelete.
    rewrite bind_run. unfold getState at 1.
    rewrite bind_run. unfold setState at 1.
    rewrite bind_run, Hsel. reflexivity.
Qed.

(** X12. After mounting, the component sends a request (a call of
    [axios] or of [wavesurfer.load]) on four events only: Save, Delete,
    the review check box, and the arrival of the loaded data, which
    fetches the audio file. Every other event (edits, clicks on regions,
    drawing, playback, ready, a failed load, the outcome of a request)
    leaves the list of requests as it is, and each of the four sends at
    most one request: a POST or PUT for Save, a DELETE for Delete, a
    PATCH with the ticked value for the check box, a GET of
    [/audios/filename] for the loaded data. *)
Theorem requests_only_on_save_delete_review (ev : Event) (w : World) :
  net (step getId ev w) = net w
  \/ exists req,
       net (step getId ev w) = net w ++ [req]
       /\ match ev with
          | ClickSave => method req = POST \/ method req = PUT
          | ClickDelete => method req = DELETE
          | ToggleReview c => method req = PATCH /\ body req = ReviewBody c
          | SettleLoad (Some d) =>
              method req = GET
              /\ url req = "/audios/" +:+ Js.to_string (a_filename d)
              /\ body req = NoBody
          | _ => False
          end.
Proof.
  assert (Hquiet : inv (fun w' => net w' = net w) (handler getId ev) ->
                   net (step getId ev w) = net w).
  { intros Hinv. apply Hinv. reflexivity. }
  destruct ev as [d|r| |r|s e|r s e| | | |c| | |t|k e| |i r|[d|]];
    try (left; apply Hquiet; simpl handler;
         unfold onReady, showSegmentTranscription, onRegionClick, onRegionDrawn,
                handlePlay, handlePause, handleTranscriptionChange,
                handleLabelChange, handleAlertDismiss, load_catch;
         auto 40 with inv; fail).
  - left. reflexivity.
  - right. eexists. split; [reflexivity|]. split; reflexivity.
  - destruct (handleSegmentDelete_quiet w) as [H | (req & H & Hm)].
    + left. exact H.
    + right. exists req. split; [exact H | exact Hm].
  - change (step getId ClickSave w) with (fst (handleSegmentSave w)).
    destruct (selectedSegment (st w)) as [a|] eqn:Hsel.
    + destruct (WaveSurfer.heap (ws w) !! a) as [r|] eqn:Hr.
      * right. rewrite (handleSegmentSave_selected w a r Hsel Hr). cbv zeta.
        destruct (Js.is_null _); eexists; (split; [reflexivity|]); [left | right];
          reflexivity.
      * left. rewrite handleSegmentSave_throws; [reflexivity|].
        right. exists a. split; assumption.
    + left. rewrite handleSegmentSave_throws; [reflexivity|]. left. exact Hsel.
  - left. apply Hquiet. simpl handler.
    apply inv_bind; [auto with inv|]. intros [p|]; [|apply inv_ret].
    destruct p as [v a|a| |], r as [d|]; simpl;
      unfold delete_then, delete_catch, removeSelected, create_then, save_catch,
             update_then, review_then, review_catch;
      auto 30 with inv.
  - right. destruct (step_load getId d w) as (s' & Hs & _).
    rewrite Hs. eexists. split; [reflexivity|]. repeat split.
Qed.

End Requests.

(** *** The route parameter: constructor and "Next" link *)

Lemma split_cons (sep : ascii) (s : string) :
  exists h t, JsString.split sep s = h :: t.
Proof.
  induction s as [|c s (h & t & IH)]; simpl.
  - eexists. eexists. reflexivity.
  - destruct (Ascii.eqb c sep).
    + eexists. eexists. reflexivity.
    + rewrite IH. eexists. eexists. reflexivity.
Qed.

Lemma split_none (sep : ascii) (s : string) :
  JsString.includes sep s = false -> JsString.split sep s = [s].
Proof.
  induction s as [|c s IH]; simpl; intros H; [reflexivity|].
  apply orb_false_elim in H as [Hc Hs].
  rewrite Hc, (IH Hs). reflexivity.
Qed.

Lemma split_app_sep (sep : ascii) (a s : string) :
  JsString.includes sep a = false ->
  JsString.split sep (a +:+ String sep s) = a :: JsString.split sep s.
Proof.
  induction a as [|c a IH]; simpl; intros H.
  - rewrite Ascii.eqb_refl. reflexivity.
  - apply orb_false_elim in H as [Hc Ha].
    rewrite Hc, (IH Ha). reflexivity.
Qed.

Lemma split_head_app (sep : ascii) (v s : string) :
  JsString.includes sep v = false ->
  exists h t, JsString.split sep (v +:+ s) = (v +:+ h) :: t.
Proof.
  induction v as [|c v IH]; simpl; intros H.
  - apply split_cons.
  - apply orb_false_elim in H as [Hc Hv].
    destruct (IH Hv) as (h & t & E). rewrite Hc, E.
    exists h, t. reflexivity.
Qed.

Lemma split_head_prefix (sep : ascii) (s : string) :
  exists h t, JsString.split sep s = h :: t /\ String.prefix h s = true.
Proof.
  induction s as [|c s (h & t & E & Hp)]; simpl.
  - exists EmptyString, []. split; reflexivity.
  - destruct (Ascii.eqb c sep).
    + eexists. eexists. split; reflexivity.
    + rewrite E. exists (String c h), t. split; [reflexivity|]. simpl.
      destruct (ascii_dec c c); [exact Hp | contradiction].
Qed.

Lemma firstChars_prefix (n : nat) (h s : string) :
  String.prefix h s = true -> String.prefix (JsString.firstChars n h) s = true.
Proof.
  revert h s. induction n as [|n IH]; intros h s Hp; [destruct h, s; reflexivity|].
  destruct h as [|c h]; [destruct s; reflexivity|]. simpl.
  destruct s as [|c' s]; [discriminate Hp|]. simpl in Hp.
  destruct (ascii_dec c c'); [|discriminate Hp].
  simpl. destruct (ascii_dec c c'); [apply IH, Hp | contradiction].
Qed.

Lemma firstChars_app (v h : string) :
  JsString.firstChars (String.length v) (v +:+ h) = v.
Proof. induction v as [|c v IH]; simpl; [reflexivity | rewrite IH; reflexivity]. Qed.

Lemma lastIndexOf_none (c : ascii) (s : string) :
  JsString.includes c s = false -> JsString.lastIndexOf c s = -1.
Proof.
  induction s as [|c' s IH]; simpl; intros H; [reflexivity|].
  apply orb_false_elim in H as [Hc Hs].
  rewrite (IH Hs), Hc. reflexivity.
Qed.

Lemma lastIndexOf_app (c : ascii) (v rest : string) :
  JsString.includes c rest = false ->
  JsString.lastIndexOf c (v +:+ String c rest) = Z.of_nat (String.length v).
Proof.
  intros Hrest. induction v as [|c' v IH].
  - simpl. rewrite (lastIndexOf_none _ _ Hrest), Ascii.eqb_refl. reflexivity.
  - change (JsString.lastIndexOf c (String c' v +:+ String c rest))
      with (let i := JsString.lastIndexOf c (v +:+ String c rest) in
            if 0 <=? i then i + 1 else if Ascii.eqb c' c then 0 else -1).
    cbv zeta. rewrite IH.
    change (String.length (String c' v)) with (S (String.length v)).
    destruct (Z.leb_spec 0 (Z.of_nat (String.length v))); lia.
Qed.

(** X13. The video id that the constructor cuts out of the route
    parameter: without a second ["&"]-separated part the constructor
    throws; otherwise the id is a prefix of the file name; it is empty,
    and no video is shown, when the file name has no underscore; and it
    is the text before the last underscore when no dot comes before that
    underscore. *)
Theorem youtubeId_of_file_name (dataid : string) :
  (JsString.includes "&" dataid = false -> ctor_youtubeId dataid = Throw Js.TypeError)
  /\ forall fileName : string,
       ctor_fileName dataid = Some fileName ->
       exists y,
         ctor_youtubeId dataid = Ret y
         /\ String.prefix y fileName = true
         /\ (JsString.includes "_" fileName = false ->
             y = EmptyString /\ render_video y = false)
         /\ (forall v rest : string,
               fileName = v +:+ String "_" rest ->
               JsString.includes "_" rest = false ->
               JsString.includes "." v = false ->
               y = v).
Proof.
  split.
  - intros H. unfold ctor_youtubeId, ctor_dataParams.
    rewrite (split_none _ _ H). reflexivity.
  - intros fileName Hf. unfold ctor_fileName in Hf. unfold ctor_youtubeId.
    rewrite Hf. eexists. split; [reflexivity|].
    split; [|split].
    + destruct (split_head_prefix "." fileName) as (h & t & E & Hp).
      rewrite E. simpl. unfold JsString.substr0.
      destruct (_ <=? 0); [destruct fileName; reflexivity | apply firstChars_prefix, Hp].
    + intros Hno. rewrite (lastIndexOf_none _ _ Hno). split; reflexivity.
    + intros v rest -> Hrest Hv.
      rewrite (lastIndexOf_app _ _ _ Hrest).
      destruct (split_head_app "." v (String "_" rest) Hv) as (h & t & E).
      rewrite E. simpl. unfold JsString.substr0.
      destruct (Z.leb_spec (Z.of_nat (String.length v)) 0) as [Hle|Hgt].
      * destruct v; [reflexivity | simpl in Hle; lia].
      * rewrite Nat2Z.id. apply firstChars_app.
Qed.

(** X14. The "Next" link and the constructor agree on the route
    parameter: when neither the text of the next item's id nor its file
    name contains ["&"], splitting what the link writes gives back that
    id as the first part and that file name as the second; with a start
    time free of ["&"] too, exactly the three parts. *)
Theorem next_link_round_trip (n : Nav) :
  JsString.includes "&" (Js.to_string (nextDataId n)) = false ->
  JsString.includes "&" (Js.to_string (nextFileName n)) = false ->
  ctor_dataParams (render_next_dataid n) !! 0%nat = Some (Js.to_string (nextDataId n))
  /\ ctor_fileName (render_next_dataid n) = Some (Js.to_string (nextFileName n))
  /\ (JsString.includes "&" (Js.to_string (nextYoutubeStartTime n)) = false ->
      ctor_dataParams (render_next_dataid n)
      = [Js.to_string (nextDataId n); Js.to_string (nextFileName n);
         Js.to_string (nextYoutubeStartTime n)]).
Proof.
  intros Ha Hb.
  assert (N : render_next_dataid n
              = Js.to_string (nextDataId n)
                +:+ String "&" (Js.to_string (nextFileName n)
                                +:+ String "&" (Js.to_string (nextYoutubeStartTime n))))
    by reflexivity.
  assert (E : forall x y z : string,
             JsString.includes "&" x = false -> JsString.includes "&" y = false ->
             JsString.split "&" (x +:+ String "&" (y +:+ String "&" z))
             = x :: y :: JsString.split "&" z).
  { intros x y z Hx Hy. rewrite (split_app_sep _ _ _ Hx), (split_app_sep _ _ _ Hy).
    reflexivity. }
  unfold ctor_fileName, ctor_dataParams. rewrite N.
  rewrite (E _ _ _ Ha Hb).
  split; [reflexivity|]. split; [reflexivity|].
  intros Hc. rewrite (split_none _ _ Hc). reflexivity.
Qed.

(** *** The page of items *)


(** *** The further statements at the sample worlds *)

Lemma delete_removes_only_that_record_witness :
  let w' := step ex_getId ClickDelete ex_fresh in
  (forall k, WaveSurfer.get k (WaveSurfer.rlist (ws w')) <> Some 0%nat)
  /\ selectedSegment (st w') = None
  /\ render_editControls (st w') = false.
Proof.
  assert (Hok : list_ok (ws ex_fresh)).
  { apply (run_sound ex_getId [SettleLoad (Some (ex_load [])); Ready 10] ex_mounted).
    apply empty_sound. reflexivity. }
  destruct (delete_removes_only_that_record ex_getId ex_fresh 0
              {| WaveSurfer.id := "wavesurfer_0"; WaveSurfer.start := 0;
                 WaveSurfer.end_ := 10; WaveSurfer.data := empty_data |}
              None Hok eq_refl eq_refl eq_refl eq_refl)
    as (H1 & _ & _ & H4 & H5 & _).
  split; [exact H1|]. split; [exact H4 | exact H5].
Defined.

Lemma failing_then_ends_as_rejection_witness :
  let w := step ex_getId ClickDelete ex_fresh in
  settle (PDelete true 0) (Fulfilled None) w = settle (PDelete true 0) Rejected w.
Proof.
  exact (proj2 (proj2 failing_then_ends_as_rejection) true 0%nat None
           (step ex_getId ClickDelete ex_fresh)
           {| WaveSurfer.id := "wavesurfer_0"; WaveSurfer.start := 0;
              WaveSurfer.end_ := 10; WaveSurfer.data := empty_data |}
           eq_refl eq_refl).
Defined.

Lemma create_after_local_delete_reselects_witness :
  let d := {| r_segmentation_id := Js.Num 8; r_is_marked_for_review := false |} in
  let w' := run ex_getId [ClickSave; ClickDelete; Settle 0 (Fulfilled (Some d))] ex_fresh in
  let w'' := run ex_getId [ClickDelete; Settle 0 (Fulfilled None)] w' in
  selectedSegment (st w') = Some 0%nat
  /\ WaveSurfer.get "wavesurfer_0" (WaveSurfer.rlist (ws w')) = None
  /\ backendId w' 0 = Some (Js.Num 8)
  /\ selectedSegment (st w'') = Some 0%nat.
Proof.
  intros d w' w''.
  destruct (create_after_local_delete_reselects ex_getId ex_fresh 0
              {| WaveSurfer.id := "wavesurfer_0"; WaveSurfer.start := 0;
                 WaveSurfer.end_ := 10; WaveSurfer.data := empty_data |}
              d None eq_refl eq_refl eq_refl eq_refl eq_refl eq_refl)
    as (H1 & H2 & H3 & _ & H5 & _).
  split; [exact H1|]. split; [exact H2|]. split; [exact H3 | exact H5].
Defined.


Lemma edits_touch_one_field_witness :
  let e := {| e_value := "2"; e_selectedOptions := ["2"; "5"] |} in
  (exists rl,
      WaveSurfer.heap (ws (fst (handleLabelChange "tags" e ex_synced))) !! 0%nat = Some rl
      /\ transcription (WaveSurfer.data rl) = Js.Str "hello"
      /\ segmentation_id (WaveSurfer.data rl) = Js.Num 7)
  /\ WaveSurfer.rlist (ws (fst (handleLabelChange "tags" e ex_synced)))
     = WaveSurfer.rlist (ws ex_synced).
Proof.
  intros e.
  destruct (edits_touch_one_field ex_synced 0
              {| WaveSurfer.id := "wavesurfer_0"; WaveSurfer.start := 0;
                 WaveSurfer.end_ := 3 # 2;
                 WaveSurfer.data := {| segmentation_id := Js.Num 7;
                                       transcription := Js.Str "hello";
                                       annotations := None |} |}
              "tags"
              {| l_label_id := Js.Num 2; l_type := "multiselect";
                 l_values := [(Js.Num 2, "noise"); (Js.Num 5, "music")] |}
              e "hi" eq_refl eq_refl eq_refl)
    as ((rl & Hrl & Ht & Hi & _) & _ & _ & Hlist & _).
  split; [|exact Hlist].
  exists rl. split; [exact Hrl|]. split; [exact Ht | exact Hi].
Defined.

Lemma edits_show_in_controls_witness :
  let l := {| l_label_id := Js.Num 2; l_type := "multiselect";
              l_values := [(Js.Num 2, "noise"); (Js.Num 5, "music")] |} in
  render_transcription (fst (handleTranscriptionChange "hi" ex_fresh)) = Js.Str "hi"
  /\ render_select_value
       (fst (handleLabelChange "tags" {| e_value := ""; e_selectedOptions := [] |} ex_fresh))
       "tags" l
     = Multi [].
Proof.
  intros l.
  destruct (edits_show_in_controls ex_fresh 0
              {| WaveSurfer.id := "wavesurfer_0"; WaveSurfer.start := 0;
                 WaveSurfer.end_ := 10; WaveSurfer.data := empty_data |}
              "tags" l {| e_value := ""; e_selectedOptions := [] |} "hi"
              eq_refl eq_refl eq_refl)
    as (Ht & Hm & _).
  split; [exact Ht | exact (Hm eq_refl)].
Defined.


Lemma falsy_id_updates_but_deletes_locally_witness :
  (exists w1 req,
      handleSegmentSave ex_zero = (w1, Ret tt)
      /\ net w1 = net ex_zero ++ [req]
      /\ method req = PUT
      /\ url req = "/api/projects/1/data/2/segmentations/0")
  /\ (exists w2,
         handleSegmentDelete ex_zero = (w2, Ret tt)
         /\ net w2 = net ex_zero
         /\ selectedSegment (st w2) = None).
Proof.
  destruct (falsy_id_updates_but_deletes_locally ex_zero 0
              {| WaveSurfer.id := "wavesurfer_0"; WaveSurfer.start := 0;
                 WaveSurfer.end_ := 3 # 2;
                 WaveSurfer.data := {| segmentation_id := Js.Num 0;
                                       transcription := Js.Str "hello";
                                       annotations := None |} |}
              eq_refl eq_refl eq_refl eq_refl eq_refl eq_refl)
    as ((w1 & Hs & Hn) & (w2 & Hd & Hn2 & _ & Hsel)).
  split.
  - exists w1. eexists. split; [exact Hs|]. split; [exact Hn|]. split; reflexivity.
  - exists w2. split; [exact Hd|]. split; [exact Hn2 | exact Hsel].
Defined.

Lemma playback_changes_no_data_witness :
  let w' := run ex_getId [ClickPlay; RegionIn 0; RegionOut; Paused] ex_loaded in
  selectedSegment (st w') = None /\ ws w' = ws ex_loaded /\ net w' = net ex_loaded.
Proof.
  intros w'.
  destruct (playback_changes_no_data ex_getId [ClickPlay; RegionIn 0; RegionOut; Paused]
              ex_loaded eq_refl)
    as (H1 & H2 & H3 & _).
  split; [exact H1|]. split; [exact H2 | exact H3].
Defined.

Lemma youtubeId_of_file_name_witness :
  ctor_youtubeId "12" = Throw Js.TypeError
  /\ exists y, ctor_youtubeId "12&abcDEF_xy_3.wav&45000" = Ret y /\ y = "abcDEF_xy".
Proof.
  split.
  - exact (proj1 (youtubeId_of_file_name "12") eq_refl).
  - destruct (proj2 (youtubeId_of_file_name "12&abcDEF_xy_3.wav&45000")
                "abcDEF_xy_3.wav" eq_refl)
      as (y & Hy & _ & _ & Hv).
    exists y. split; [exact Hy|].
    exact (Hv "abcDEF_xy" "3.wav" eq_refl eq_refl eq_refl).
Defined.

Lemma next_link_round_trip_witness :
  let n := {| nextDataId := Js.Num 13; nextFileName := Js.Str "vid_1.wav";
              nextYoutubeStartTime := Js.Num 3000 |} in
  render_next_dataid n = "13&vid_1.wav&3000"
  /\ ctor_fileName (render_next_dataid n) = Some "vid_1.wav"
  /\ ctor_dataParams (render_next_dataid n) = ["13"; "vid_1.wav"; "3000"].
Proof.
  intros n.
  destruct (next_link_round_trip n eq_refl eq_refl) as (_ & Hf & Hall).
  split; [reflexivity|]. split; [exact Hf | exact (Hall eq_refl)].
Defined.


(** *** The review flag *)

Section ReviewFlag.

Variable getId : nat -> string.






End ReviewFlag.

